(** * rag-rbac: the RAG pipeline with per-user access control

    A shallow embedding of [app/rag.py] (chunking, ingestion, retrieval,
    deletion, statistics) and of the two endpoints of [app/main.py] that
    delete vectors, together with the parts of [app/database.py] and
    [app/auth.py] they call.

    Python values are modelled as follows.
    - [str] is a list of Unicode code points ([pystr]); dictionary keys that
      the source writes as literals are Rocq strings, and [lit] turns a
      literal into a [pystr].
    - [int] is [Z]; loop offsets and lengths, which are never negative, are
      [nat].
    - [float] is kept abstract: the embedding vectors and the similarity
      scores belong to the types [Vector] and [Score] of the outside world.
    - a Qdrant payload (a [dict]) is a [gmap string PValue].
    - exceptions are the values of [exn]; a computation returns [exn + A]
      together with the updated world. *)

From Stdlib Require Import ZArith NArith Ascii String DecimalString.
From Stdlib.Strings Require Import Byte.
From stdpp Require Import base option list gmap strings.
From Equations Require Import Equations.

Open Scope Z_scope.

(** ** Python strings *)

Abbreviation char := N (only parsing).
Abbreviation pystr := (list char) (only parsing).

(** A source literal as a Python string. *)
Definition lit (s : string) : pystr := map N_of_ascii (list_ascii_of_string s).

(** [str.isspace] on one code point, which is also what [\s] matches in a
    [str] pattern: U+0009..000D, U+001C..0020, U+0085, U+00A0, U+1680,
    U+2000..200A, U+2028, U+2029, U+202F, U+205F, U+3000. *)
Definition isspace (c : char) : bool :=
  (((9 <=? c) && (c <=? 13)) || ((28 <=? c) && (c <=? 32)) ||
   (c =? 133) || (c =? 160) || (c =? 5760) ||
   ((8192 <=? c) && (c <=? 8202)) ||
   (c =? 8232) || (c =? 8233) || (c =? 8239) || (c =? 8287) || (c =? 12288))%N.

Definition space : char := 32%N.

(** [re.sub(r'\s+', ' ', text)]: every maximal run of whitespace becomes one
    space. [in_run] tells that the previous character was whitespace. *)
Fixpoint re_sub_ws (in_run : bool) (text : pystr) : pystr :=
  match text with
  | [] => []
  | c :: rest =>
      if isspace c
      then (if in_run then re_sub_ws true rest else space :: re_sub_ws true rest)
      else c :: re_sub_ws false rest
  end.

Fixpoint lstrip (s : pystr) : pystr :=
  match s with
  | [] => []
  | c :: rest => if isspace c then lstrip rest else s
  end.

Definition rstrip (s : pystr) : pystr := rev (lstrip (rev s)).

(** [s.strip()] *)
Definition strip (s : pystr) : pystr := rstrip (lstrip s).

(** Empty or whitespace-only: exactly the strings [s] with [not s.strip()]. *)
Definition blank (s : pystr) : bool := forallb isspace s.

(** [s[i:j]] for [0 <= i]; Python clamps both ends to the length. *)
Definition slice {A} (s : list A) (i j : nat) : list A := take (j - i) (drop i s).

(** Truth value of a [str] or a [list]. *)
Definition truthy {A} (l : list A) : bool :=
  match l with [] => false | _ => true end.

(** ** Constants of [app/rag.py] *)

Definition COLLECTION : string := "documents".
Definition CHUNK_SIZE : nat := 500.
Definition CHUNK_OVERLAP : nat := 50.
Definition TOP_K : Z := 5.

(** ** Text processing *)

(** [text = re.sub(r'\s+', ' ', text).strip()], the first line of
    [chunk_text]. *)
Definition normalize (text : pystr) : pystr := strip (re_sub_ws false text).

(** No two whitespace characters in a row ([prev_ws]: the character before
    [s] was whitespace). *)
Fixpoint single_spaced (prev_ws : bool) (s : pystr) : bool :=
  match s with
  | [] => true
  | c :: rest =>
      if isspace c then negb prev_ws && single_spaced true rest
      else single_spaced false rest
  end.

Definition ends_nonspace (s : pystr) : Prop :=
  s = [] \/ exists p c, s = p ++ [c] /\ isspace c = false.

(** The shape of a normalized text. *)
Definition well_spaced (s : pystr) : Prop :=
  single_spaced false s = true /\ ends_nonspace s.

(** The [while start < len(text)] loop of [chunk_text]. *)
Equations? chunk_loop (text : pystr) (start : nat) (chunks : list pystr)
  : list pystr by wf (length text - start)%nat lt :=
  chunk_loop text start chunks with lt_dec start (length text) => {
    | left _ =>
        let end_ := (start + CHUNK_SIZE)%nat in
        let chunk := slice text start end_ in
        chunk_loop text (start + (CHUNK_SIZE - CHUNK_OVERLAP))%nat
          (if truthy (strip chunk) then chunks ++ [strip chunk] else chunks)
    | right _ => chunks }.
Proof. unfold CHUNK_SIZE, CHUNK_OVERLAP. lia. Qed.

Definition chunk_text (text : pystr) : list pystr :=
  let text := normalize text in
  chunk_loop text 0 [].


(** [extract_text_from_pdf]'s [for page in reader.pages] loop: pages whose
    text is empty contribute nothing. *)
Definition nonempty_pages (pages : list pystr) : list pystr :=
  List.filter truthy pages.

(** [sep.join(parts)] on strings. *)
Fixpoint join (sep : pystr) (parts : list pystr) : pystr :=
  match parts with
  | [] => []
  | [p] => p
  | p :: rest => p ++ sep ++ join sep rest
  end.

(** [range(start, stop, step)] for a positive [step]. *)
Definition py_range (start stop step : nat) : list nat :=
  map (fun k => (start + k * step)%nat)
      (seq 0 (Nat.div (stop - start + (step - 1)) step)).

(** ** Qdrant models: payloads and filters *)

(** The JSON values this program stores in a payload. *)
Inductive PValue : Type :=
| PInt (n : Z)
| PStr (s : pystr).

#[global] Instance PValue_eq_dec : EqDecision PValue.
Proof. solve_decision. Defined.

Record MatchValue : Type := { value : PValue }.
Record FieldCondition : Type := { key : string; match_ : MatchValue }.
Record Filter : Type := { must : list FieldCondition }.

#[global] Instance MatchValue_eq_dec : EqDecision MatchValue.
Proof. solve_decision. Defined.
#[global] Instance FieldCondition_eq_dec : EqDecision FieldCondition.
Proof. solve_decision. Defined.
#[global] Instance Filter_eq_dec : EqDecision Filter.
Proof. solve_decision. Defined.

(** What Qdrant means by a filter: every [must] condition holds, and a
    [MatchValue] condition holds when the payload has that value under the
    key. No filter at all accepts every record. *)
Definition condition_holds (payload : gmap string PValue) (c : FieldCondition) : bool :=
  bool_decide (payload !! key c = Some (value (match_ c))).

Definition satisfies (f : option Filter) (payload : gmap string PValue) : bool :=
  match f with
  | None => true
  | Some f => forallb (condition_holds payload) (must f)
  end.

Inductive CollectionStatus : Type := GREEN | YELLOW | GREY | RED.

(** [status.value] *)
Definition status_value (s : CollectionStatus) : pystr :=
  match s with
  | GREEN => lit "green"
  | YELLOW => lit "yellow"
  | GREY => lit "grey"
  | RED => lit "red"
  end.

(** [client.get_collection(...)]'s answer; [points_count] may be [None]. *)
Record CollectionInfo : Type := {
  points_count : option Z;
  status : CollectionStatus
}.

(** ** Exceptions *)

Inductive exn : Type :=
| ValueError (msg : pystr)
| KeyError (k : string)
| TypeError
| HTTPException (status_code : Z) (detail : pystr)
| LibraryError (name : string).

(** ** The relational store of [app/database.py] *)

Record UserRow : Type := {
  users_id : Z;
  users_username : pystr;
  users_role : pystr
}.

Record DocumentRow : Type := {
  documents_id : Z;
  documents_user_id : Z;
  documents_filename : pystr;
  documents_chunk_count : Z
}.

Record Database : Type := {
  users : list UserRow;
  documents : list DocumentRow
}.

(** The dictionary [decode_token] returns and the endpoints receive. *)
Record CurrentUser : Type := {
  cu_user_id : Z;
  cu_username : pystr;
  cu_role : pystr
}.

(** [qdrant: QdrantClient | None], the lazily built global handle. *)
Record QdrantClient : Type := { host : string; port : Z }.

Definition QDRANT_HOST : string := "qdrant".
Definition QDRANT_PORT : Z := 6333.

(** ** Points, results and the outside world *)

Section Pipeline.

(** [Env] is the state of everything outside the process (the Ollama server,
    the Qdrant server, the random source of [uuid4]); [Vector] and [Score]
    are the float vectors and float scores that travel through the program
    untouched. *)
Context {Env Vector Score : Type}.

Record PointStruct : Type := {
  ps_id : pystr;
  ps_vector : Vector;
  ps_payload : gmap string PValue
}.

(** An element of [results.points]. *)
Record ScoredPoint : Type := {
  point_payload : gmap string PValue;
  point_score : Score
}.

(** An element of ["sources"] in the dictionary [query_rag] returns. *)
Record Source : Type := {
  filename : PValue;
  chunk_index : PValue;
  owner_id : PValue;
  score : Score
}.

(** The dictionary [query_rag] returns. *)
Record RetrievalResult : Type := {
  answer : pystr;
  sources : list Source;
  chunks_searched : nat
}.

(** The dictionary [get_collection_stats] returns. *)
Record CollectionStats : Type := {
  total_vectors : option Z;
  stats_status : pystr
}.

(** The network calls the process issues, in the order it issues them. *)
Inductive Event : Type :=
| EmbedCall (text : pystr)
| GenerateCall (prompt system : pystr)
| QueryPointsCall (collection_name : string) (query : Vector)
    (query_filter : option Filter) (limit : Z)
| UpsertCall (collection_name : string) (points : list PointStruct)
| DeleteCall (collection_name : string) (points_selector : Filter)
| GetCollectionCall (collection_name : string).

(** What the external services and libraries answer. Each network service
    reads and updates [Env]; any of them can raise. *)
Record Outside : Type := {
  http_embed : pystr -> Env -> (exn + Vector) * Env;
  http_generate : pystr -> pystr -> Env -> (exn + pystr) * Env;
  qdrant_query_points :
    string -> Vector -> option Filter -> Z -> Env -> (exn + list ScoredPoint) * Env;
  qdrant_upsert : string -> list PointStruct -> Env -> (exn + unit) * Env;
  qdrant_delete : string -> Filter -> Env -> (exn + unit) * Env;
  qdrant_get_collection : string -> Env -> (exn + CollectionInfo) * Env;
  uuid4 : Env -> pystr * Env;
  pdf_page_texts : list byte -> exn + list pystr;
  decode_utf8_replace : list byte -> pystr;
  round4 : Score -> Score
}.

Record World : Type := {
  env : Env;
  calls : list Event;
  qdrant : option QdrantClient;
  db : Database
}.

Definition set_env (e : Env) (w : World) : World :=
  {| env := e; calls := calls w; qdrant := qdrant w; db := db w |}.
Definition log_call (ev : Event) (w : World) : World :=
  {| env := env w; calls := calls w ++ [ev]; qdrant := qdrant w; db := db w |}.
Definition set_qdrant (c : option QdrantClient) (w : World) : World :=
  {| env := env w; calls := calls w; qdrant := c; db := db w |}.
Definition set_db (d : Database) (w : World) : World :=
  {| env := env w; calls := calls w; qdrant := qdrant w; db := d |}.

(** ** Computations: world passing with exceptions *)

Definition M (A : Type) : Type := World -> (exn + A) * World.

Definition ret {A} (a : A) : M A := fun w => (inr a, w).
Definition raise {A} (e : exn) : M A := fun w => (inl e, w).
Definition bind {A B} (m : M A) (k : A -> M B) : M B :=
  fun w => match m w with
           | (inr a, w') => k a w'
           | (inl e, w') => (inl e, w')
           end.
(** A pure step that may raise. *)
Definition lift {A} (r : exn + A) : M A := fun w => (r, w).
(** [try: m  except Exception: h] *)
Definition try_except {A} (m : M A) (h : exn -> M A) : M A :=
  fun w => match m w with
           | (inr a, w') => (inr a, w')
           | (inl e, w') => h e w'
           end.
(** One network call: it is logged, then the service answers. *)
Definition net_call {A} (ev : Event) (svc : Env -> (exn + A) * Env) : M A :=
  fun w => let w1 := log_call ev w in
           let (r, e') := svc (env w1) in (r, set_env e' w1).

Notation "x <- c1 ;; c2" := (bind c1 (fun x => c2))
  (at level 20, c1 at level 99, c2 at level 200, only parsing).
Notation "'exec' c1 ;; c2" := (bind c1 (fun _ => c2))
  (at level 20, c1 at level 99, c2 at level 200, only parsing).

(** [for x in xs: body(x)] with an accumulator. *)
Fixpoint for_each {A S} (xs : list A) (body : S -> A -> M S) (acc : S) : M S :=
  match xs with
  | [] => ret acc
  | x :: rest => acc' <- body acc x ;; for_each rest body acc'
  end.

Variable out : Outside.

(** ** [app/rag.py] *)

Definition get_qdrant : M QdrantClient := fun w =>
  match qdrant w with
  | Some c => (inr c, w)
  | None =>
      let c := {| host := QDRANT_HOST; port := QDRANT_PORT |} in
      (inr c, set_qdrant (Some c) w)
  end.

Definition extract_text_from_pdf (content : list byte) : exn + pystr :=
  match pdf_page_texts out content with
  | inl e => inl e
  | inr pages => inr (join (lit (String "010"%char EmptyString)) (nonempty_pages pages))
  end.

Definition get_embedding (text : pystr) : M Vector :=
  net_call (EmbedCall text) (http_embed out text).

Definition llm_generate (prompt system : pystr) : M pystr :=
  net_call (GenerateCall prompt system) (http_generate out prompt system).

(** The first statement of [ingest_document]: the text of the upload. *)
Definition extract_text (content : list byte) (content_type : pystr) : exn + pystr :=
  if bool_decide (content_type = lit "application/pdf")
  then extract_text_from_pdf content
  else inr (decode_utf8_replace out content).

(** Body of [for i, chunk in enumerate(chunks)]. *)
Definition embed_chunk (user_id : Z) (fname : pystr)
    (points : list PointStruct) (ic : nat * pystr) : M (list PointStruct) :=
  let (i, chunk) := ic in
  vector <- get_embedding chunk ;;
  fun w =>
    let (fresh, e') := uuid4 out (env w) in
    (inr (points ++ [ {| ps_id := fresh;
                         ps_vector := vector;
                         ps_payload :=
                           <["user_id" := PInt user_id]>
                           (<["filename" := PStr fname]>
                           (<["chunk_index" := PInt (Z.of_nat i)]>
                           (<["text" := PStr chunk]> ∅))) |} ]),
     set_env e' w).

Definition ingest_document (user_id : Z) (fname : pystr)
    (content : list byte) (content_type : pystr) : M nat :=
  text <- lift (extract_text content content_type) ;;
  if negb (truthy (strip text))
  then raise (ValueError (lit "No text could be extracted from the document"))
  else
    let chunks := chunk_text text in
    if negb (truthy chunks)
    then raise (ValueError (lit "Document produced no chunks after processing"))
    else
      points <- for_each (imap pair chunks) (embed_chunk user_id fname) [] ;;
      client <- get_qdrant ;;
      let batch_size := 100%nat in
      exec for_each (py_range 0 (length points) batch_size)
        (fun _ i =>
           net_call (UpsertCall COLLECTION (slice points i (i + batch_size)))
                    (qdrant_upsert out COLLECTION (slice points i (i + batch_size))))
        tt ;;
      ret (length chunks).

(** [payload[k]] *)
Definition getitem (payload : gmap string PValue) (k : string) : exn + PValue :=
  match payload !! k with
  | Some v => inr v
  | None => inl (KeyError k)
  end.

(** Body of [for point in results.points]. *)
Definition collect_point (acc : list PValue * list Source) (point : ScoredPoint)
  : exn + list PValue * list Source :=
  let (context_parts, srcs) := acc in
  let payload := point_payload point in
  match getitem payload "text" with
  | inl e => inl e
  | inr text =>
    match getitem payload "filename" with
    | inl e => inl e
    | inr fname =>
      match getitem payload "chunk_index" with
      | inl e => inl e
      | inr idx =>
        match getitem payload "user_id" with
        | inl e => inl e
        | inr uid =>
            inr (context_parts ++ [text],
                 srcs ++ [ {| filename := fname; chunk_index := idx;
                              owner_id := uid;
                              score := round4 out (point_score point) |} ])
        end
      end
    end
  end.

Fixpoint collect_points (acc : list PValue * list Source) (points : list ScoredPoint)
  : exn + list PValue * list Source :=
  match points with
  | [] => inr acc
  | point :: rest =>
      match collect_point acc point with
      | inl e => inl e
      | inr acc' => collect_points acc' rest
      end
  end.

(** [sep.join(parts)] where the parts come from payloads: anything but a
    string is a [TypeError]. *)
Fixpoint as_strs (parts : list PValue) : exn + list pystr :=
  match parts with
  | [] => inr []
  | PStr s :: rest =>
      match as_strs rest with inl e => inl e | inr l => inr (s :: l) end
  | PInt _ :: _ => inl TypeError
  end.

Definition join_values (sep : pystr) (parts : list PValue) : exn + pystr :=
  match as_strs parts with
  | inl e => inl e
  | inr l => inr (join sep l)
  end.

Definition nl : pystr := lit (String "010"%char EmptyString).

Definition system_prompt : pystr :=
  lit "You are a helpful assistant that answers questions based on the provided context. "
  ++ lit "Only use information from the context below. If the context doesn't contain "
  ++ lit "enough information to answer, say so clearly. Cite which source documents "
  ++ lit "you drew from.".

Definition build_prompt (context question : pystr) : pystr :=
  lit "Context (retrieved documents):" ++ nl ++ context ++ nl ++ nl
  ++ lit "Question: " ++ question ++ nl ++ nl
  ++ lit "Answer based on the context above:".

(** The filter a non-admin caller's search is restricted by. *)
Definition owner_filter (user_id : Z) : Filter :=
  {| must := [ {| key := "user_id"; match_ := {| value := PInt user_id |} |} ] |}.

(** The [if role == "admin"] block at the head of [query_rag]. *)
Definition rbac_filter (role : pystr) (user_id : Z) : option Filter :=
  if bool_decide (role = lit "admin") then None
  else Some (owner_filter user_id).

Definition no_documents_answer : pystr :=
  lit "No relevant documents found in your accessible knowledge base.".

Definition query_rag (question : pystr) (user_id : Z) (role : pystr) (top_k : Z)
  : M RetrievalResult :=
  query_vector <- get_embedding question ;;
  let query_filter := rbac_filter role user_id in
  client <- get_qdrant ;;
  results <- net_call (QueryPointsCall COLLECTION query_vector query_filter top_k)
               (qdrant_query_points out COLLECTION query_vector query_filter top_k) ;;
  if negb (truthy results)
  then ret {| answer := no_documents_answer; sources := []; chunks_searched := 0 |}
  else
    collected <- lift (collect_points ([], []) results) ;;
    let (context_parts, srcs) := collected in
    context <- lift (join_values (nl ++ nl ++ lit "---" ++ nl ++ nl) context_parts) ;;
    let prompt := build_prompt context question in
    ans <- llm_generate prompt system_prompt ;;
    ret {| answer := ans; sources := srcs; chunks_searched := length results |}.

(** Truth value of [filename: str | None]. *)
Definition truthy_opt (fname : option pystr) : bool :=
  match fname with
  | Some s => truthy s
  | None => false
  end.

Definition delete_user_vectors (user_id : Z) (fname : option pystr) : M unit :=
  client <- get_qdrant ;;
  let conditions := [ {| key := "user_id"; match_ := {| value := PInt user_id |} |} ] in
  let conditions :=
    match fname with
    | Some s =>
        if truthy s
        then conditions ++ [ {| key := "filename"; match_ := {| value := PStr s |} |} ]
        else conditions
    | None => conditions
    end in
  net_call (DeleteCall COLLECTION {| must := conditions |})
           (qdrant_delete out COLLECTION {| must := conditions |}).

Definition get_collection_stats : M CollectionStats :=
  client <- get_qdrant ;;
  try_except
    (info <- net_call (GetCollectionCall COLLECTION) (qdrant_get_collection out COLLECTION) ;;
     ret {| total_vectors := points_count info;
            stats_status := status_value (status info) |})
    (fun _ => ret {| total_vectors := Some 0; stats_status := lit "unknown" |}).

(** ** [app/database.py] *)

(** [DELETE FROM users WHERE id = ? AND role != 'admin']; [rowcount > 0]. *)
Definition delete_user (user_id : Z) : M bool := fun w =>
  let hit (r : UserRow) :=
    bool_decide (users_id r = user_id) && negb (bool_decide (users_role r = lit "admin")) in
  let d := db w in
  (inr (truthy (List.filter hit (users d))),
   set_db {| users := List.filter (fun r => negb (hit r)) (users d);
             documents := documents d |} w).

(** Truth value of [user_id: int | None]. *)
Definition truthy_id (user_id : option Z) : bool :=
  match user_id with
  | Some n => negb (n =? 0)
  | None => false
  end.

Definition delete_document (doc_id : Z) (user_id : option Z) : M (option pystr) := fun w =>
  let d := db w in
  let row :=
    if truthy_id user_id
    then head (List.filter
                 (fun r => bool_decide (documents_id r = doc_id)
                           && bool_decide (Some (documents_user_id r) = user_id))
                 (documents d))
    else head (List.filter (fun r => bool_decide (documents_id r = doc_id)) (documents d)) in
  match row with
  | Some r =>
      (inr (Some (documents_filename r)),
       set_db {| users := users d;
                 documents :=
                   List.filter (fun r => negb (bool_decide (documents_id r = doc_id)))
                               (documents d) |} w)
  | None => (inr None, w)
  end.

(** ** [app/auth.py] *)

Definition require_admin (user : CurrentUser) : M CurrentUser :=
  if negb (bool_decide (cu_role user = lit "admin"))
  then raise (HTTPException 403 (lit "Admin access required"))
  else ret user.

(** ** [app/main.py]: the endpoints that delete vectors *)

(** [DELETE /api/users/{user_id}]; [user] is the decoded token that
    [Depends(require_admin)] checks. *)
Definition remove_user (user_id : Z) (user : CurrentUser) : M pystr :=
  admin <- require_admin user ;;
  exec delete_user_vectors user_id None ;;
  deleted <- delete_user user_id ;;
  if negb deleted
  then raise (HTTPException 404 (lit "User not found or is admin"))
  else ret (lit "User and all associated data deleted").

(** [DELETE /api/documents/{doc_id}] *)
Definition remove_document (doc_id : Z) (user : CurrentUser) : M pystr :=
  fname <- (if bool_decide (cu_role user = lit "admin")
            then delete_document doc_id None
            else delete_document doc_id (Some (cu_user_id user))) ;;
  if negb (truthy_opt fname)
  then raise (HTTPException 404 (lit "Document not found"))
  else
    let name := default [] fname in
    exec delete_user_vectors (cu_user_id user) fname ;;
    ret (lit "Document '" ++ name ++ lit "' and its vectors deleted").

(** ** Vocabulary of the statements *)

(** The calls issued between world [w] and the later world [w']. *)
Definition new_calls (w w' : World) : list Event :=
  drop (length (calls w)) (calls w').

Definition is_generate_call (ev : Event) : bool :=
  match ev with GenerateCall _ _ => true | _ => false end.

(** Every search call in [evs] carries the filter [f]. *)
Definition searches_filtered_by (f : option Filter) (evs : list Event) : Prop :=
  Forall (fun ev => match ev with
                    | QueryPointsCall _ _ g _ => g = f
                    | _ => True
                    end) evs.

(** Source [s] is the entry [query_rag] builds from point [p]. *)
Definition source_of (p : ScoredPoint) (s : Source) : Prop :=
  point_payload p !! "filename" = Some (filename s) /\
  point_payload p !! "chunk_index" = Some (chunk_index s) /\
  point_payload p !! "user_id" = Some (owner_id s) /\
  score s = round4 out (point_score p).

(** Assumption on the vector store: a search returns only records that
    satisfy the filter it was given. *)
Definition store_respects_filter : Prop :=
  forall c v f lim e pts e',
    qdrant_query_points out c v f lim e = (inr pts, e') ->
    Forall (fun p => satisfies f (point_payload p) = true) pts.

(** Assumption on the vector store: a search returns at most [limit]
    records. *)
Definition store_respects_limit : Prop :=
  forall c v f lim e pts e',
    qdrant_query_points out c v f lim e = (inr pts, e') ->
    Z.of_nat (length pts) <= lim.

End Pipeline.

(** ** A reference outside world: an in-memory collection

    The collection is the list of its points; a search keeps the points that
    satisfy the filter and returns the first [limit] of them, a delete drops
    the points that satisfy the selector. The model services never fail. *)

Module Reference.

Definition Vec : Type := list Z.
Definition Store : Type := list (@PointStruct Vec).

Definition to_scored (p : @PointStruct Vec) : @ScoredPoint Z :=
  {| point_payload := ps_payload p; point_score := 1 |}.

Definition search (f : option Filter) (lim : Z) (e : Store) : list (@ScoredPoint Z) :=
  take (Z.to_nat lim) (map to_scored (List.filter (fun p => satisfies f (ps_payload p)) e)).

Definition world : @Outside Store Vec Z :=
  {| http_embed := fun text e => (inr [Z.of_nat (length text)], e);
     http_generate := fun prompt system e => (inr (lit "answer"), e);
     qdrant_query_points := fun c v f lim e =>
       if lim <? 0 then (inl (LibraryError "UnexpectedResponse"), e)
       else (inr (search f lim e), e);
     qdrant_upsert := fun c pts e => (inr tt, e ++ pts);
     qdrant_delete := fun c f e =>
       (inr tt, List.filter (fun p => negb (satisfies (Some f) (ps_payload p))) e);
     qdrant_get_collection := fun c e =>
       (inr {| points_count := Some (Z.of_nat (length e)); status := GREEN |}, e);
     uuid4 := fun e => (lit "00000000-0000-4000-8000-000000000000", e);
     pdf_page_texts := fun content => inr [];
     decode_utf8_replace := fun content => map (fun b => N.of_nat (Byte.to_nat b)) content;
     round4 := fun s => s |}.

Definition record (owner : Z) (fname : string) (i : Z) (text : string) : @PointStruct Vec :=
  {| ps_id := lit "p";
     ps_vector := [0];
     ps_payload :=
       <["user_id" := PInt owner]>
       (<["filename" := PStr (lit fname)]>
       (<["chunk_index" := PInt i]>
       (<["text" := PStr (lit text)]> ∅))) |}.

(** Two tenants: user 2 owns two chunks, user 3 one. *)
Definition corpus : Store :=
  [ record 2 "a.txt" 0 "alpha"; record 3 "b.txt" 0 "beta"; record 2 "a.txt" 1 "gamma" ].

Definition start (e : Store) (d : Database) : @World Store Vec :=
  {| env := e; calls := []; qdrant := None; db := d |}.

Definition no_db : Database := {| users := []; documents := [] |}.

Definition document7 : DocumentRow :=
  {| documents_id := 7; documents_user_id := 2;
     documents_filename := lit "a.txt"; documents_chunk_count := 2 |}.

(** An administrator (id 1) and the owner (id 2) of document 7. *)
Definition office_db : Database :=
  {| users := [ {| users_id := 1; users_username := lit "admin"; users_role := lit "admin" |};
                {| users_id := 2; users_username := lit "bob"; users_role := lit "user" |} ];
     documents := [ document7 ] |}.

(** What user 2 gets back for a question with [top_k = 5]. *)
Definition answer_for_user2 : @RetrievalResult Z :=
  {| answer := lit "answer";
     sources :=
       [ {| filename := PStr (lit "a.txt"); chunk_index := PInt 0;
            owner_id := PInt 2; score := 1 |};
         {| filename := PStr (lit "a.txt"); chunk_index := PInt 1;
            owner_id := PInt 2; score := 1 |} ];
     chunks_searched := 2 |}.

Definition admin1 : CurrentUser :=
  {| cu_user_id := 1; cu_username := lit "admin"; cu_role := lit "admin" |}.

End Reference.

(** ** Further vocabulary: windows, batches, decimal numbers *)

(** The step of the chunking loop: [CHUNK_SIZE - CHUNK_OVERLAP]. *)
Definition CHUNK_STEP : nat := CHUNK_SIZE - CHUNK_OVERLAP.

(** The window of the [k]-th iteration of the loop, as it is appended. *)
Definition window (text : pystr) (k : nat) : pystr :=
  strip (slice text (k * CHUNK_STEP) (k * CHUNK_STEP + CHUNK_SIZE)).

(** Number of iterations on a text of [n] characters: [n / 450], rounded
    up. *)
Definition window_count (n : nat) : nat :=
  Nat.div (n + (CHUNK_STEP - 1)) CHUNK_STEP.

(** Every whitespace character of [s] is U+0020. *)
Definition only_spaces (s : pystr) : bool :=
  forallb (fun c => negb (isspace c) || (c =? space)%N) s.

(** [points[i : i + size] for i in range(0, len(points), size)] *)
Definition batches {A} (points : list A) (size : nat) : list (list A) :=
  map (fun i => slice points i (i + size)) (py_range 0 (length points) size).

(** The payload [ingest_document] gives the [i]-th chunk. *)
Definition ingest_payload (user_id : Z) (fname : pystr) (i : nat) (chunk : pystr)
  : gmap string PValue :=
  <["user_id" := PInt user_id]>
  (<["filename" := PStr fname]>
  (<["chunk_index" := PInt (Z.of_nat i)]>
  (<["text" := PStr chunk]> ∅))).

(** The four keys [query_rag] reads are there and the text is a string. *)
Definition renderable (payload : gmap string PValue) : Prop :=
  (exists t, payload !! "text" = Some (PStr t)) /\
  is_Some (payload !! "filename") /\
  is_Some (payload !! "chunk_index") /\
  is_Some (payload !! "user_id").


(** Every stored role is one of the two the endpoints accept. *)
Definition roles_valid (d : Database) : Prop :=
  Forall (fun r => users_role r = lit "user" \/ users_role r = lit "admin") (users d).

(** [str(n)] for a natural number. *)
Definition str_nat (n : nat) : pystr :=
  lit (NilEmpty.string_of_uint (Nat.to_uint n)).

(** [s.endswith(suffix)] *)
Definition endswith (s suffix : pystr) : bool :=
  bool_decide (drop (length s - length suffix) s = suffix).

(** [s.endswith((a, b, ...))] *)
Definition endswith_any (s : pystr) (suffixes : list pystr) : bool :=
  existsb (endswith s) suffixes.

(** [x or default] for [x: str | None]. *)
Definition str_or (x : option pystr) (d : pystr) : pystr :=
  match x with
  | Some s => if truthy s then s else d
  | None => d
  end.

(** What the upload endpoint reads of a FastAPI [UploadFile]. *)
Record UploadFile : Type := {
  uf_content_type : option pystr;
  uf_filename : option pystr;
  uf_content : list byte
}.

(** The dictionary [upload_document] returns. *)
Record UploadResponse : Type := {
  up_message : pystr;
  up_document_id : Z;
  up_chunk_count : nat
}.

(** [allowed] in [upload_document]. *)
Definition allowed_types : list pystr :=
  [lit "application/pdf"; lit "text/plain"; lit "text/markdown"; lit "text/csv"].

Definition allowed_suffixes : list pystr :=
  [lit ".txt"; lit ".md"; lit ".pdf"; lit ".csv"].

Definition MAX_UPLOAD : Z := 20 * 1024 * 1024.

(** The name [upload_document] works with: [file.filename or "unknown"]. *)
Definition upload_name (file : UploadFile) : pystr :=
  str_or (uf_filename file) (lit "unknown").

(** The upload passes the file-type check: its declared type is allowed or
    its name has an allowed extension. *)
Definition type_accepted (file : UploadFile) : bool :=
  bool_decide (str_or (uf_content_type file) [] ∈ allowed_types)
  || endswith_any (upload_name file) allowed_suffixes.

(** The content type [upload_document] hands to [ingest_document]. *)
Definition processing_type (fname : pystr) : pystr :=
  if endswith fname (lit ".pdf") then lit "application/pdf" else lit "text/plain".

(** ** The remaining endpoints of [app/main.py] *)

Section Endpoints.

Context {Env Vector Score : Type}.
Variable out : @Outside Env Vector Score.

(** The row id SQLite assigns to a row inserted in [documents]
    ([cur.lastrowid]); the table is [AUTOINCREMENT], the choice is
    SQLite's. *)
Variable next_rowid : Database -> Z.

Notation "x <- c1 ;; c2" := (bind c1 (fun x => c2))
  (at level 20, c1 at level 99, c2 at level 200, only parsing).

(** The points of the upsert calls in a log, in order. *)
Definition upserted_points (evs : list (@Event Vector)) : list (@PointStruct Vector) :=
  flat_map (fun ev => match ev with UpsertCall _ pts => pts | _ => [] end) evs.

Definition is_upsert_call (ev : @Event Vector) : bool :=
  match ev with UpsertCall _ _ => true | _ => false end.

(** A call that changes the collection. *)
Definition is_write_call (ev : @Event Vector) : bool :=
  match ev with UpsertCall _ _ | DeleteCall _ _ => true | _ => false end.

(** The embedding service answers every request. *)
Definition embedding_up : Prop :=
  forall text e, exists v e', http_embed out text e = (inr v, e').

(** The vector store accepts every upsert. *)
Definition upsert_up : Prop :=
  forall c pts e, exists e', qdrant_upsert out c pts e = (inr tt, e').


(** [UPDATE users SET role = ? WHERE id = ?]; [rowcount > 0]. *)
Definition update_user_role (user_id : Z) (new_role : pystr) : @M Env Vector bool :=
  fun w =>
    let hit (r : UserRow) := bool_decide (users_id r = user_id) in
    let d := db w in
    (inr (truthy (List.filter hit (users d))),
     set_db {| users :=
                 map (fun r => if hit r
                               then {| users_id := users_id r;
                                       users_username := users_username r;
                                       users_role := new_role |}
                               else r) (users d);
               documents := documents d |} w).

(** [INSERT INTO documents (user_id, filename, chunk_count)]; [lastrowid]. *)
Definition record_document (user_id : Z) (fname : pystr) (chunk_count : nat)
  : @M Env Vector Z :=
  fun w =>
    let d := db w in
    let doc_id := next_rowid d in
    (inr doc_id,
     set_db {| users := users d;
               documents :=
                 documents d ++
                 [ {| documents_id := doc_id; documents_user_id := user_id;
                      documents_filename := fname;
                      documents_chunk_count := Z.of_nat chunk_count |} ] |} w).

(** [PUT /api/users/{user_id}/role] *)
Definition change_role (user_id : Z) (req_role : pystr) (user : CurrentUser)
  : @M Env Vector pystr :=
  admin <- require_admin user ;;
  if negb (bool_decide (req_role = lit "user") || bool_decide (req_role = lit "admin"))
  then raise (HTTPException 400 (lit "Role must be 'user' or 'admin'"))
  else
    updated <- update_user_role user_id req_role ;;
    if negb updated
    then raise (HTTPException 404 (lit "User not found"))
    else ret (lit "Role updated to '" ++ req_role ++ lit "'").

(** [POST /api/documents/upload] *)
Definition upload_document (file : UploadFile) (user : CurrentUser)
  : @M Env Vector UploadResponse :=
  let content_type := str_or (uf_content_type file) [] in
  let fname := str_or (uf_filename file) (lit "unknown") in
  if negb (bool_decide (content_type ∈ allowed_types))
     && negb (endswith_any fname allowed_suffixes)
  then raise (HTTPException 400
                (lit "Unsupported file type: " ++ content_type
                 ++ lit ". Allowed: PDF, TXT, MD, CSV"))
  else
    let content := uf_content file in
    if MAX_UPLOAD <? Z.of_nat (length content)
    then raise (HTTPException 400 (lit "File too large (max 20MB)"))
    else
      let content_type :=
        if endswith fname (lit ".pdf") then lit "application/pdf"
        else lit "text/plain" in
      chunk_count <-
        try_except
          (ingest_document out (cu_user_id user) fname content content_type)
          (fun e => match e with
                    | ValueError msg => raise (HTTPException 400 msg)
                    | _ => raise e
                    end) ;;
      doc_id <- record_document (cu_user_id user) fname chunk_count ;;
      ret {| up_message :=
               lit "Ingested '" ++ fname ++ lit "' " ++ [8594%N] ++ lit " "
               ++ str_nat chunk_count ++ lit " chunks";
             up_document_id := doc_id;
             up_chunk_count := chunk_count |}.

End Endpoints.

(** ** More of the reference world *)

Module Scenario.

(** A collection whose embedding service is down. *)
Definition embed_down : @Outside Reference.Store Reference.Vec Z :=
  {| http_embed := fun text e => (inl (LibraryError "HTTPStatusError"), e);
     http_generate := http_generate Reference.world;
     qdrant_query_points := qdrant_query_points Reference.world;
     qdrant_upsert := qdrant_upsert Reference.world;
     qdrant_delete := qdrant_delete Reference.world;
     qdrant_get_collection := qdrant_get_collection Reference.world;
     uuid4 := uuid4 Reference.world;
     pdf_page_texts := pdf_page_texts Reference.world;
     decode_utf8_replace := decode_utf8_replace Reference.world;
     round4 := round4 Reference.world |}.

(** A PDF reader that finds two pages, one blank and one empty. *)
Definition scanned : @Outside Reference.Store Reference.Vec Z :=
  {| http_embed := http_embed Reference.world;
     http_generate := http_generate Reference.world;
     qdrant_query_points := qdrant_query_points Reference.world;
     qdrant_upsert := qdrant_upsert Reference.world;
     qdrant_delete := qdrant_delete Reference.world;
     qdrant_get_collection := qdrant_get_collection Reference.world;
     uuid4 := uuid4 Reference.world;
     pdf_page_texts := fun content => inr [lit "  "; []];
     decode_utf8_replace := decode_utf8_replace Reference.world;
     round4 := round4 Reference.world |}.

(** One more than the largest id in the table. *)
Definition next_rowid (d : Database) : Z :=
  1 + fold_right Z.max 0 (map documents_id (documents d)).

Definition bob : CurrentUser :=
  {| cu_user_id := 2; cu_username := lit "bob"; cu_role := lit "user" |}.

Definition carol : CurrentUser :=
  {| cu_user_id := 3; cu_username := lit "carol"; cu_role := lit "user" |}.

(** The bytes of "hello world", and a text upload holding them. *)
Definition hello_bytes : list byte :=
  [x68; x65; x6c; x6c; x6f; x20; x77; x6f; x72; x6c; x64].

Definition hello_file : UploadFile :=
  {| uf_content_type := Some (lit "text/plain");
     uf_filename := Some (lit "hello.txt");
     uf_content := hello_bytes |}.

Definition blank_file : UploadFile :=
  {| uf_content_type := Some (lit "text/plain");
     uf_filename := Some (lit "blank.txt");
     uf_content := [x20; x0a] |}.

Definition image_file : UploadFile :=
  {| uf_content_type := Some (lit "image/png");
     uf_filename := Some (lit "photo.png");
     uf_content := hello_bytes |}.

(** A point whose payload has no text. *)
Definition broken_point : @PointStruct Reference.Vec :=
  {| ps_id := lit "b"; ps_vector := [0];
     ps_payload := <["user_id" := PInt 2]> (<["filename" := PStr (lit "x.txt")]> ∅) |}.

End Scenario.

(** * Properties *)

(** ** Whitespace *)

Lemma lstrip_nil_iff s : lstrip s = [] <-> blank s = true.
Proof.
  induction s as [|c r IH]; simpl; [tauto|].
  destruct (isspace c); simpl; [exact IH|].
  split; discriminate.
Qed.

Lemma blank_app s1 s2 : blank (s1 ++ s2) = blank s1 && blank s2.
Proof. apply forallb_app. Qed.

Lemma blank_rev s : blank (rev s) = blank s.
Proof.
  induction s as [|c r IH]; simpl; [reflexivity|].
  rewrite blank_app, IH. simpl. rewrite andb_true_r. apply andb_comm.
Qed.

Lemma blank_lstrip s : blank (lstrip s) = blank s.
Proof.
  induction s as [|c r IH]; simpl; [reflexivity|].
  destruct (isspace c) eqn:E; simpl; [exact IH|]. now rewrite E.
Qed.

Lemma rev_nil_iff {A} (l : list A) : rev l = [] <-> l = [].
Proof.
  split; intros H; [|now subst].
  apply (f_equal (@rev A)) in H. now rewrite rev_involutive in H.
Qed.

Lemma rstrip_nil_iff s : rstrip s = [] <-> blank s = true.
Proof. unfold rstrip. rewrite rev_nil_iff, lstrip_nil_iff. now rewrite blank_rev. Qed.

Lemma strip_nil_iff s : strip s = [] <-> blank s = true.
Proof. unfold strip. rewrite rstrip_nil_iff. now rewrite blank_lstrip. Qed.

Lemma truthy_strip s : truthy (strip s) = negb (blank s).
Proof.
  destruct (blank s) eqn:E.
  - apply strip_nil_iff in E. now rewrite E.
  - destruct (strip s) eqn:S; [|reflexivity].
    apply strip_nil_iff in S. congruence.
Qed.

Lemma lstrip_suffix s : exists p, s = p ++ lstrip s.
Proof.
  induction s as [|c r [p IH]]; simpl; [now exists []|].
  destruct (isspace c).
  - exists (c :: p). simpl. now f_equal.
  - now exists [].
Qed.

Lemma lstrip_head s :
  match lstrip s with [] => True | c :: _ => isspace c = false end.
Proof.
  induction s as [|c r IH]; simpl; [exact I|].
  destruct (isspace c) eqn:E; [exact IH | exact E].
Qed.

Lemma rstrip_prefix s : exists q, s = rstrip s ++ q.
Proof.
  unfold rstrip. destruct (lstrip_suffix (rev s)) as [p Hp].
  exists (rev p). rewrite <- rev_app_distr, <- Hp. now rewrite rev_involutive.
Qed.

Lemma rstrip_ends_nonspace s : ends_nonspace (rstrip s).
Proof.
  unfold ends_nonspace, rstrip.
  pose proof (lstrip_head (rev s)) as H.
  destruct (lstrip (rev s)) as [|c r]; [now left|].
  right. exists (rev r), c. simpl. now split.
Qed.

Lemma length_lstrip s : (length (lstrip s) <= length s)%nat.
Proof.
  induction s as [|c r IH]; simpl; [lia|].
  destruct (isspace c); simpl; lia.
Qed.

Lemma length_strip s : (length (strip s) <= length s)%nat.
Proof.
  unfold strip, rstrip. rewrite length_rev.
  etransitivity; [apply length_lstrip|]. rewrite length_rev. apply length_lstrip.
Qed.

Lemma length_re_sub_ws b s : (length (re_sub_ws b s) <= length s)%nat.
Proof.
  revert b. induction s as [|c r IH]; intros b; simpl; [lia|].
  destruct (isspace c); [destruct b|]; simpl;
    first [ specialize (IH true); lia | specialize (IH false); lia ].
Qed.

Lemma length_normalize s : (length (normalize s) <= length s)%nat.
Proof.
  unfold normalize. etransitivity; [apply length_strip | apply length_re_sub_ws].
Qed.

Lemma blank_re_sub_ws b s : blank (re_sub_ws b s) = blank s.
Proof.
  revert b. induction s as [|c r IH]; intros b; simpl; [reflexivity|].
  destruct (isspace c) eqn:E; simpl.
  - destruct b; simpl; apply IH.
  - now rewrite E.
Qed.

Lemma normalize_nil_iff s : normalize s = [] <-> blank s = true.
Proof. unfold normalize. rewrite strip_nil_iff. now rewrite blank_re_sub_ws. Qed.

(** ** The shape of a normalized text *)

Lemma single_spaced_weaken s : single_spaced true s = true -> single_spaced false s = true.
Proof. destruct s as [|c r]; simpl; [tauto|]. destruct (isspace c); simpl; [discriminate | tauto]. Qed.

Lemma single_spaced_prefix b s1 s2 :
  single_spaced b (s1 ++ s2) = true -> single_spaced b s1 = true.
Proof.
  revert b. induction s1 as [|c r IH]; intros b; simpl; [reflexivity|].
  destruct (isspace c); [|apply IH].
  rewrite !andb_true_iff. intros [H1 H2]. split; [exact H1 | now apply IH].
Qed.

Lemma single_spaced_suffix b s1 s2 :
  single_spaced b (s1 ++ s2) = true -> single_spaced false s2 = true.
Proof.
  revert b. induction s1 as [|c r IH]; intros b; simpl.
  - destruct b; [apply single_spaced_weaken | tauto].
  - destruct (isspace c); [|apply IH].
    rewrite andb_true_iff. intros [_ H]. now apply IH in H.
Qed.

Lemma single_spaced_re_sub_ws b s : single_spaced b (re_sub_ws b s) = true.
Proof.
  revert b. induction s as [|c r IH]; intros b; simpl; [reflexivity|].
  destruct (isspace c) eqn:E.
  - destruct b; [apply IH|]. simpl. apply IH.
  - simpl. rewrite E. apply IH.
Qed.

Lemma normalize_well_spaced s : well_spaced (normalize s).
Proof.
  split; [|apply rstrip_ends_nonspace].
  unfold normalize, strip.
  destruct (rstrip_prefix (lstrip (re_sub_ws false s))) as [q Hq].
  destruct (lstrip_suffix (re_sub_ws false s)) as [p Hp].
  pose proof (single_spaced_re_sub_ws false s) as H.
  rewrite Hp in H. apply single_spaced_suffix in H.
  rewrite Hq in H. now apply single_spaced_prefix in H.
Qed.

Lemma single_spaced_two a b r :
  single_spaced false (a :: b :: r) = true -> blank (a :: b :: r) = false.
Proof.
  simpl. destruct (isspace a); [|reflexivity].
  destruct (isspace b); simpl; [discriminate | reflexivity].
Qed.

(** Every window the loop looks at holds a character that is not
    whitespace, so the loop never drops a window of a normalized text. *)
Lemma window_not_blank t start :
  well_spaced t -> (start < length t)%nat ->
  blank (slice t start (start + CHUNK_SIZE)) = false.
Proof.
  intros [Hss Hend] Hlt. unfold slice.
  replace (start + CHUNK_SIZE - start)%nat with CHUNK_SIZE by lia.
  destruct (le_lt_dec (length t - start) CHUNK_SIZE) as [Hle|Hgt].
  - rewrite take_ge by (rewrite length_drop; exact Hle).
    destruct Hend as [->|(p & c & -> & Hc)]; [simpl in Hlt; lia|].
    rewrite length_app in Hlt. simpl in Hlt.
    rewrite drop_app_le by lia.
    rewrite blank_app. simpl. rewrite Hc. apply andb_false_r.
  - rewrite <- (take_drop start t) in Hss. apply single_spaced_suffix in Hss.
    rewrite <- (take_drop CHUNK_SIZE (drop start t)) in Hss.
    apply single_spaced_prefix in Hss.
    assert (Hlen : length (take CHUNK_SIZE (drop start t)) = CHUNK_SIZE).
    { rewrite length_take, length_drop. lia. }
    destruct (take CHUNK_SIZE (drop start t)) as [|a [|b r]];
      [discriminate Hlen | discriminate Hlen |].
    now apply single_spaced_two.
Qed.

(** ** The chunking loop *)

Lemma chunk_loop_step t start acc :
  (start < length t)%nat ->
  chunk_loop t start acc =
  chunk_loop t (start + (CHUNK_SIZE - CHUNK_OVERLAP))
    (if truthy (strip (slice t start (start + CHUNK_SIZE)))
     then acc ++ [strip (slice t start (start + CHUNK_SIZE))] else acc).
Proof.
  intros H. rewrite chunk_loop_equation_1.
  destruct (lt_dec start (length t)); [reflexivity | contradiction].
Qed.

Lemma chunk_loop_done t start acc :
  (length t <= start)%nat -> chunk_loop t start acc = acc.
Proof.
  intros H. rewrite chunk_loop_equation_1.
  destruct (lt_dec start (length t)); [lia | reflexivity].
Qed.

(** On a normalized text an iteration always appends its window. *)
Lemma chunk_loop_step_ws t start acc :
  well_spaced t -> (start < length t)%nat ->
  chunk_loop t start acc =
  chunk_loop t (start + (CHUNK_SIZE - CHUNK_OVERLAP))
    (acc ++ [strip (slice t start (start + CHUNK_SIZE))]).
Proof.
  intros Hw H. rewrite chunk_loop_step by exact H.
  now rewrite truthy_strip, (window_not_blank t start Hw H).
Qed.

Ltac chunk_arith := unfold CHUNK_SIZE, CHUNK_OVERLAP in *; lia.

Lemma chunk_text_unfold text :
  chunk_text text = chunk_loop (normalize text) 0 [].
Proof. reflexivity. Qed.

Lemma normalize_nonempty_length s : normalize s <> [] -> (0 < length (normalize s))%nat.
Proof. destruct (normalize s); [congruence | simpl; lia]. Qed.

(** A normalized text of at most 450 characters: one iteration. *)
Lemma chunk_loop_one t :
  well_spaced t -> (0 < length t)%nat ->
  (length t <= CHUNK_SIZE - CHUNK_OVERLAP)%nat ->
  chunk_loop t 0 [] = [strip (slice t 0 (0 + CHUNK_SIZE))].
Proof.
  intros Hw Hpos Hle.
  rewrite chunk_loop_step_ws by assumption.
  now rewrite chunk_loop_done by chunk_arith.
Qed.

(** A normalized text of 451 to 900 characters: two iterations. *)
Lemma chunk_loop_two t :
  well_spaced t ->
  (CHUNK_SIZE - CHUNK_OVERLAP < length t)%nat ->
  (length t <= 2 * (CHUNK_SIZE - CHUNK_OVERLAP))%nat ->
  chunk_loop t 0 [] =
  [strip (slice t 0 (0 + CHUNK_SIZE)); strip (slice t 450 (450 + CHUNK_SIZE))].
Proof.
  intros Hw Hlo Hhi.
  rewrite chunk_loop_step_ws by (assumption || chunk_arith).
  rewrite chunk_loop_step_ws by (assumption || chunk_arith).
  now rewrite chunk_loop_done by chunk_arith.
Qed.

(** C3, as the code has it: a normalized text that is non-empty and at most
    450 characters long (the window size minus the overlap) gives exactly one
    chunk; one of 451 to 499 characters gives exactly two, the stripped
    windows of the normalized text that start at offsets 0 and 450; an empty
    or whitespace-only text gives no chunk. *)
Theorem chunk_text_short_or_blank (text : pystr) :
  (normalize text <> [] ->
   (length (normalize text) <= CHUNK_SIZE - CHUNK_OVERLAP)%nat ->
   length (chunk_text text) = 1%nat) /\
  ((CHUNK_SIZE - CHUNK_OVERLAP < length (normalize text))%nat ->
   (length (normalize text) < CHUNK_SIZE)%nat ->
   chunk_text text =
     [ strip (slice (normalize text) 0 (0 + CHUNK_SIZE));
       strip (slice (normalize text) 450 (450 + CHUNK_SIZE)) ] /\
   length (chunk_text text) = 2%nat) /\
  (blank text = true -> chunk_text text = []).
Proof.
  rewrite chunk_text_unfold.
  pose proof (normalize_well_spaced text) as Hw.
  split; [|split].
  - intros Hne Hle. apply normalize_nonempty_length in Hne.
    now rewrite chunk_loop_one.
  - intros Hlo Hhi.
    rewrite chunk_loop_two; [split; reflexivity | assumption | assumption |].
    chunk_arith.
  - intros Hb. apply normalize_nil_iff in Hb. rewrite Hb.
    now rewrite chunk_loop_done.
Qed.

Lemma chunk_text_short_or_blank_witness :
  length (chunk_text (lit "  hello   world ")) = 1%nat /\
  (chunk_text (repeat 97%N 460) =
     [ strip (slice (normalize (repeat 97%N 460)) 0 (0 + CHUNK_SIZE));
       strip (slice (normalize (repeat 97%N 460)) 450 (450 + CHUNK_SIZE)) ] /\
   length (chunk_text (repeat 97%N 460)) = 2%nat) /\
  chunk_text (lit "   ") = [].
Proof.
  split; [|split].
  - apply (chunk_text_short_or_blank (lit "  hello   world ")).
    + vm_compute. discriminate.
    + vm_compute. lia.
  - apply (chunk_text_short_or_blank (repeat 97%N 460)).
    + vm_compute. lia.
    + vm_compute. lia.
  - apply (chunk_text_short_or_blank (lit "   ")). reflexivity.
Defined.

(** C3 as stated fails: 451 letters are non-empty and shorter than the
    window after normalization, and [chunk_text] returns two chunks. *)
Lemma chunk_text_451_two_chunks :
  normalize (repeat 97%N 451) <> [] /\
  (length (normalize (repeat 97%N 451)) < CHUNK_SIZE)%nat /\
  length (chunk_text (repeat 97%N 451)) = 2%nat /\
  length (chunk_text (repeat 97%N 451)) <> 1%nat.
Proof.
  split; [|split; [|split]].
  - vm_compute. discriminate.
  - vm_compute. lia.
  - vm_compute. reflexivity.
  - vm_compute. discriminate.
Qed.

(** C8: a normalized text of 1200 characters is cut into exactly three
    chunks, the windows that start at offsets 0, 450 and 900; a text shorter
    than 450 characters that is not whitespace-only gives exactly one
    chunk. *)
Theorem chunk_text_1200_and_short (text : pystr) :
  (normalize text = text -> length text = 1200%nat ->
   chunk_text text =
   [ strip (slice text 0 (0 + CHUNK_SIZE));
     strip (slice text 450 (450 + CHUNK_SIZE));
     strip (slice text 900 (900 + CHUNK_SIZE)) ]) /\
  (blank text = false -> (length text < 450)%nat ->
   length (chunk_text text) = 1%nat).
Proof.
  split.
  - intros Hn Hlen. rewrite chunk_text_unfold, Hn.
    assert (Hw : well_spaced text) by (rewrite <- Hn; apply normalize_well_spaced).
    rewrite chunk_loop_step_ws by (assumption || chunk_arith).
    rewrite chunk_loop_step_ws by (assumption || chunk_arith).
    rewrite chunk_loop_step_ws by (assumption || chunk_arith).
    now rewrite chunk_loop_done by chunk_arith.
  - intros Hb Hlen. rewrite chunk_text_unfold.
    rewrite chunk_loop_one; [reflexivity | apply normalize_well_spaced | |].
    + apply normalize_nonempty_length. intros Hnil.
      apply normalize_nil_iff in Hnil. congruence.
    + pose proof (length_normalize text). chunk_arith.
Qed.

Lemma chunk_text_1200_and_short_witness :
  chunk_text (repeat 97%N 1200) =
  [ strip (slice (repeat 97%N 1200) 0 (0 + CHUNK_SIZE));
    strip (slice (repeat 97%N 1200) 450 (450 + CHUNK_SIZE));
    strip (slice (repeat 97%N 1200) 900 (900 + CHUNK_SIZE)) ] /\
  length (chunk_text (lit " short text ")) = 1%nat.
Proof.
  split.
  - apply (chunk_text_1200_and_short (repeat 97%N 1200)).
    + vm_compute. reflexivity.
    + vm_compute. reflexivity.
  - apply (chunk_text_1200_and_short (lit " short text ")).
    + vm_compute. reflexivity.
    + vm_compute. lia.
Defined.

(** ** The pipeline *)

Section PipelineFacts.

Context {Env Vector Score : Type}.
Variable out : @Outside Env Vector Score.

Implicit Types w : @World Env Vector.

Lemma new_calls_app w w' l : calls w' = calls w ++ l -> new_calls w w' = l.
Proof. unfold new_calls. intros ->. apply drop_app_length. Qed.

Lemma get_qdrant_calls w : calls (snd (get_qdrant w)) = calls w.
Proof. unfold get_qdrant. now destruct (qdrant w). Qed.

Lemma get_qdrant_env w : env (snd (get_qdrant w)) = env w.
Proof. unfold get_qdrant. now destruct (qdrant w). Qed.

Lemma get_qdrant_db w : db (snd (get_qdrant w)) = db w.
Proof. unfold get_qdrant. now destruct (qdrant w). Qed.

Lemma get_qdrant_returns w : exists c, fst (get_qdrant w) = inr c.
Proof. unfold get_qdrant. destruct (qdrant w); simpl; eauto. Qed.

(** [get_qdrant] never raises and touches only the handle. *)
Lemma get_qdrant_run w :
  exists c w1, get_qdrant w = (inr c, w1) /\
               calls w1 = calls w /\ env w1 = env w /\ db w1 = db w.
Proof.
  unfold get_qdrant. destruct (qdrant w); simpl; eauto 10.
Qed.

(** C7: [get_collection_stats] always returns a dictionary: the point count
    and the status of the collection when the lookup succeeds, a count of zero
    and the status "unknown" whenever the lookup raises. *)
Theorem get_collection_stats_never_raises w :
  exists r w',
    get_collection_stats out w = (inr r, w') /\
    match fst (qdrant_get_collection out COLLECTION (env w)) with
    | inr info =>
        r = {| total_vectors := points_count info;
               stats_status := status_value (status info) |}
    | inl _ =>
        r = {| total_vectors := Some 0; stats_status := lit "unknown" |}
    end.
Proof.
  unfold get_collection_stats, bind, try_except, net_call, ret.
  destruct (get_qdrant_run w) as (c & w1 & -> & _ & He & _).
  simpl. rewrite He.
  destruct (qdrant_get_collection out COLLECTION (env w)) as [[e|info] e'];
    simpl; eauto.
Qed.

(** *** Retrieval *)

Lemma getitem_inr (payload : gmap string PValue) k v :
  getitem payload k = inr v -> payload !! k = Some v.
Proof. unfold getitem. destruct (payload !! k); congruence. Qed.

Lemma collect_point_spec cp srcs p cp' srcs' :
  collect_point out (cp, srcs) p = inr (cp', srcs') ->
  exists s, srcs' = srcs ++ [s] /\ source_of out p s.
Proof.
  unfold collect_point.
  destruct (getitem (point_payload p) "text") as [|t] eqn:Ht; [discriminate|].
  destruct (getitem (point_payload p) "filename") as [|f] eqn:Hf; [discriminate|].
  destruct (getitem (point_payload p) "chunk_index") as [|i] eqn:Hi; [discriminate|].
  destruct (getitem (point_payload p) "user_id") as [|u] eqn:Hu; [discriminate|].
  intros [= <- <-]. eexists. split; [reflexivity|].
  unfold source_of. simpl. auto using getitem_inr.
Qed.

(** The loop over the points appends one source per point, in order. *)
Lemma collect_points_spec pts : forall cp srcs cp' srcs',
  collect_points out (cp, srcs) pts = inr (cp', srcs') ->
  exists new, srcs' = srcs ++ new /\ Forall2 (source_of out) pts new.
Proof.
  induction pts as [|p pts IH]; intros cp srcs cp' srcs'; cbn [collect_points].
  - intros [= <- <-]. exists []. split; [now rewrite app_nil_r | constructor].
  - destruct (collect_point out (cp, srcs) p) as [|[cp1 srcs1]] eqn:Hp; [discriminate|].
    apply collect_point_spec in Hp as (s & -> & Hs).
    intros H. apply IH in H as (new & -> & Hnew).
    exists (s :: new). split; [now rewrite <- app_assoc | now constructor].
Qed.

(** What a run of [query_rag] that returns a result went through. *)
Lemma query_rag_inv q uid role k w res w' :
  query_rag out q uid role k w = (inr res, w') ->
  exists v e1 pts e2,
    http_embed out q (env w) = (inr v, e1) /\
    qdrant_query_points out COLLECTION v (rbac_filter role uid) k e1 = (inr pts, e2) /\
    Forall2 (source_of out) pts (sources res) /\
    chunks_searched res = length pts.
Proof.
  unfold query_rag, bind, get_embedding, llm_generate, net_call, lift, ret. simpl.
  destruct (http_embed out q (env w)) as [[e|v] e1] eqn:Hemb; [discriminate|].
  destruct (get_qdrant_run (set_env e1 (log_call (EmbedCall q) w)))
    as (c & w1 & -> & _ & He & _).
  simpl in *. rewrite He.
  destruct (qdrant_query_points out COLLECTION v (rbac_filter role uid) k e1)
    as [[e|pts] e2] eqn:Hq; [discriminate|].
  destruct pts as [|p pts]; cbn [truthy negb collect_points].
  - intros [= <- <-]. exists v, e1, [], e2. simpl. repeat split; auto.
  - destruct (collect_point out ([], []) p) as [|acc1] eqn:Hp; [discriminate|].
    destruct (collect_points out acc1 pts) as [|[cp srcs]] eqn:Hc; [discriminate|].
    destruct (join_values _ cp) as [|context]; [discriminate|].
    simpl. destruct (http_generate out _ _ e2) as [[e|ans] e3]; [discriminate|].
    intros [= <- <-]. exists v, e1, (p :: pts), e2. simpl.
    repeat split; auto.
    destruct (collect_points_spec (p :: pts) [] [] cp srcs) as (new & -> & Hnew);
      [cbn [collect_points]; now rewrite Hp | exact Hnew].
Qed.

(** The calls a run of [query_rag] issues: the embedding of the question,
    then (when that succeeded) one search with the filter of the caller,
    then at most one generation. *)
Lemma query_rag_calls q uid role k w :
  match http_embed out q (env w) with
  | (inl _, _) => new_calls w (snd (query_rag out q uid role k w)) = [EmbedCall q]
  | (inr v, _) =>
      new_calls w (snd (query_rag out q uid role k w)) =
        [EmbedCall q; QueryPointsCall COLLECTION v (rbac_filter role uid) k] \/
      exists p s,
        new_calls w (snd (query_rag out q uid role k w)) =
        [EmbedCall q; QueryPointsCall COLLECTION v (rbac_filter role uid) k;
         GenerateCall p s]
  end.
Proof.
  unfold query_rag, bind, get_embedding, llm_generate, net_call, lift, ret. simpl.
  destruct (http_embed out q (env w)) as [[e|v] e1].
  { apply new_calls_app. reflexivity. }
  destruct (get_qdrant_run (set_env e1 (log_call (EmbedCall q) w)))
    as (c & w1 & -> & Hc & He & _).
  simpl in *. rewrite He.
  destruct (qdrant_query_points out COLLECTION v (rbac_filter role uid) k e1)
    as [[e|pts] e2].
  { left. apply new_calls_app. simpl. rewrite Hc, <- app_assoc. reflexivity. }
  destruct pts as [|p pts]; cbn [truthy negb collect_points].
  { left. apply new_calls_app. simpl. rewrite Hc, <- app_assoc. reflexivity. }
  destruct (collect_point out ([], []) p) as [|acc1].
  { left. apply new_calls_app. simpl. rewrite Hc, <- app_assoc. reflexivity. }
  destruct (collect_points out acc1 pts) as [|[cp srcs]].
  { left. apply new_calls_app. simpl. rewrite Hc, <- app_assoc. reflexivity. }
  destruct (join_values _ cp) as [|context].
  { left. apply new_calls_app. simpl. rewrite Hc, <- app_assoc. reflexivity. }
  simpl. right. do 2 eexists.
  destruct (http_generate out _ _ e2) as [[e|ans] e3];
    apply new_calls_app; simpl; rewrite Hc, <- !app_assoc; reflexivity.
Qed.

Lemma rbac_filter_non_admin role uid :
  role <> lit "admin" -> rbac_filter role uid = Some (owner_filter uid).
Proof. intros H. unfold rbac_filter. now rewrite bool_decide_eq_false_2. Qed.

Lemma satisfies_owner_filter uid (payload : gmap string PValue) :
  satisfies (Some (owner_filter uid)) payload = true <->
  payload !! "user_id" = Some (PInt uid).
Proof.
  unfold satisfies, owner_filter, condition_holds. simpl.
  rewrite andb_true_r. apply bool_decide_eq_true.
Qed.

(** C1: when the vector store returns only records that satisfy the filter
    it is given, every source of a result returned to a caller whose role is
    not "admin" has the caller's [user_id] as [owner_id]. *)
Theorem query_rag_owner_containment q uid role k w res w' :
  store_respects_filter out ->
  role <> lit "admin" ->
  query_rag out q uid role k w = (inr res, w') ->
  Forall (fun s => owner_id s = PInt uid) (sources res).
Proof.
  intros Hstore Hrole Hrun.
  apply query_rag_inv in Hrun as (v & e1 & pts & e2 & _ & Hq & Hsrc & _).
  rewrite rbac_filter_non_admin in Hq by exact Hrole.
  apply Hstore in Hq.
  induction Hsrc as [|p s pts srcs Hps _ IH]; constructor.
  - apply Forall_inv in Hq. apply satisfies_owner_filter in Hq.
    destruct Hps as (_ & _ & Hu & _). congruence.
  - apply IH. now apply Forall_inv_tail in Hq.
Qed.


(** C6: for every role string other than exactly "admin", every search that
    [query_rag] issues carries a filter, and that filter is the one condition
    [user_id == caller]: a record satisfies it exactly when its [user_id] is
    the caller's. Once the question is embedded that search is issued. So no
    role string other than "admin" reaches an unfiltered search. *)
Theorem query_rag_non_admin_search_filtered q uid role k w :
  role <> lit "admin" ->
  searches_filtered_by
    (Some {| must := [ {| key := "user_id";
                          match_ := {| value := PInt uid |} |} ] |})
    (new_calls w (snd (query_rag out q uid role k w))) /\
  (forall v e1, http_embed out q (env w) = (inr v, e1) ->
     In (QueryPointsCall COLLECTION v
           (Some {| must := [ {| key := "user_id";
                                 match_ := {| value := PInt uid |} |} ] |}) k)
        (new_calls w (snd (query_rag out q uid role k w)))) /\
  (forall payload : gmap string PValue,
     satisfies
       (Some {| must := [ {| key := "user_id";
                             match_ := {| value := PInt uid |} |} ] |})
       payload = true <->
     payload !! "user_id" = Some (PInt uid)) /\
  ~ (forall payload : gmap string PValue,
       satisfies
         (Some {| must := [ {| key := "user_id";
                               match_ := {| value := PInt uid |} |} ] |})
         payload = true).
Proof.
  intros Hrole.
  pose proof (query_rag_calls q uid role k w) as H.
  rewrite (rbac_filter_non_admin role uid Hrole) in H.
  unfold owner_filter in H.
  assert (Hsem : forall payload : gmap string PValue,
            satisfies
              (Some {| must := [ {| key := "user_id";
                                    match_ := {| value := PInt uid |} |} ] |})
              payload = true <->
            payload !! "user_id" = Some (PInt uid)).
  { intros payload. unfold satisfies, condition_holds. simpl.
    rewrite andb_true_r. apply bool_decide_eq_true. }
  assert (Hnot : ~ (forall payload : gmap string PValue,
                      satisfies
                        (Some {| must := [ {| key := "user_id";
                                              match_ := {| value := PInt uid |} |} ] |})
                        payload = true)).
  { intros Hall. specialize (Hall ∅). apply Hsem in Hall.
    rewrite lookup_empty in Hall. discriminate. }
  unfold searches_filtered_by.
  destruct (http_embed out q (env w)) as [[e|v] e1].
  - rewrite H. split; [repeat constructor|]. split; [discriminate|]. now split.
  - destruct H as [H|(p & s & H)]; rewrite H;
      (split; [repeat constructor|]);
      (split; [intros v' e1' [= <- <-]; simpl; auto | now split]).
Qed.

(** C10: in every result [query_rag] returns, [sources] has
    [chunks_searched] entries; when the vector store returns at most [limit]
    points, [chunks_searched] is at most [top_k]; the sources are built from
    the points the search returned, one for one and in the same order. *)
Theorem query_rag_sources_count_and_order q uid role k w res w' :
  query_rag out q uid role k w = (inr res, w') ->
  length (sources res) = chunks_searched res /\
  (store_respects_limit out -> Z.of_nat (chunks_searched res) <= k) /\
  exists v e1 pts e2,
    http_embed out q (env w) = (inr v, e1) /\
    qdrant_query_points out COLLECTION v (rbac_filter role uid) k e1 = (inr pts, e2) /\
    Forall2 (source_of out) pts (sources res).
Proof.
  intros Hrun.
  apply query_rag_inv in Hrun as (v & e1 & pts & e2 & Hemb & Hq & Hsrc & Hn).
  split; [|split].
  - rewrite Hn. symmetry. exact (Forall2_length _ _ _ Hsrc).
  - intros Hlim. rewrite Hn. exact (Hlim _ _ _ _ _ _ _ Hq).
  - exists v, e1, pts, e2. auto.
Qed.

(** *** Ingestion *)

(** C5: when the extracted text is empty or whitespace-only, or chunking
    gives no chunk, [ingest_document] raises [ValueError] and leaves the
    world as it was: no call has been logged, the outside world (and with it
    the vector store) is unchanged. *)
Theorem ingest_document_rejects_blank uid fname content ctype text w :
  extract_text out content ctype = inr text ->
  blank text = true \/ chunk_text text = [] ->
  exists msg,
    ingest_document out uid fname content ctype w = (inl (ValueError msg), w).
Proof.
  intros Hx Hb. unfold ingest_document, bind, lift, raise. rewrite Hx.
  rewrite truthy_strip, negb_involutive.
  destruct (blank text) eqn:E; [eauto|].
  destruct Hb as [Hb|Hb]; [discriminate|]. rewrite Hb. simpl. eauto.
Qed.

(** *** Deletion *)

Lemma delete_user_vectors_calls uid fname w :
  new_calls w (snd (delete_user_vectors out uid fname w)) =
  [DeleteCall COLLECTION
     {| must :=
          {| key := "user_id"; match_ := {| value := PInt uid |} |} ::
          match fname with
          | Some s =>
              if truthy s
              then [ {| key := "filename"; match_ := {| value := PStr s |} |} ]
              else []
          | None => []
          end |}].
Proof.
  unfold delete_user_vectors, bind, net_call.
  destruct (get_qdrant_run w) as (c & w1 & -> & Hc & He & _).
  apply new_calls_app.
  destruct fname as [[|a s]|]; simpl;
    match goal with |- context [qdrant_delete ?o ?c ?f ?e] =>
      destruct (qdrant_delete o c f e) as [r e'] end;
    simpl; now rewrite Hc.
Qed.

(** C9: an empty [filename] is the same call as no [filename]: the filter
    holds the [user_id] condition alone, so a record of that owner satisfies
    it whatever its file name is. *)
Theorem delete_user_vectors_empty_filename uid w :
  delete_user_vectors out uid (Some []) w = delete_user_vectors out uid None w /\
  new_calls w (snd (delete_user_vectors out uid (Some []) w)) =
    [DeleteCall COLLECTION (owner_filter uid)] /\
  forall (payload : gmap string PValue),
    satisfies (Some (owner_filter uid)) (<["user_id" := PInt uid]> payload) = true.
Proof.
  split; [reflexivity|]. split.
  - apply delete_user_vectors_calls.
  - intros payload. apply satisfies_owner_filter. apply lookup_insert_eq.
Qed.

(** Removing an account scopes the deletion to the removed user. *)
Lemma remove_user_calls target user w :
  cu_role user = lit "admin" ->
  new_calls w (snd (remove_user out target user w)) =
  [DeleteCall COLLECTION (owner_filter target)].
Proof.
  intros Hrole. unfold remove_user, require_admin.
  rewrite Hrole, bool_decide_eq_true_2 by reflexivity. simpl.
  unfold bind at 1. unfold ret at 1.
  pose proof (delete_user_vectors_calls target None w) as Hd.
  unfold bind, raise, ret.
  destruct (delete_user_vectors out target None w) as [[e|[]] w1]; [exact Hd|].
  simpl in *. unfold delete_user.
  match goal with |- context [negb ?b] => destruct b end; exact Hd.
Qed.

(** C2 (the document path): when an administrator removes a document, the
    filter of the vector deletion carries the administrator's own id,
    whoever [documents_user_id] says the owner is. *)
Theorem remove_document_admin_filter doc_id user w row :
  cu_role user = lit "admin" ->
  head (List.filter (fun r => bool_decide (documents_id r = doc_id))
                    (documents (db w))) = Some row ->
  documents_filename row <> [] ->
  new_calls w (snd (remove_document out doc_id user w)) =
  [DeleteCall COLLECTION
     {| must := [ {| key := "user_id";
                     match_ := {| value := PInt (cu_user_id user) |} |};
                  {| key := "filename";
                     match_ := {| value := PStr (documents_filename row) |} |} ] |}].
Proof.
  intros Hrole Hrow Hname. unfold remove_document.
  rewrite Hrole, bool_decide_eq_true_2 by reflexivity.
  unfold bind at 1. unfold delete_document. simpl truthy_id. cbv iota.
  rewrite Hrow.
  destruct (documents_filename row) as [|a s] eqn:Hf; [congruence|].
  cbn [truthy_opt truthy negb default].
  match goal with |- new_calls w (snd (bind _ _ ?w0)) = _ => set (wd := w0) end.
  pose proof (delete_user_vectors_calls (cu_user_id user) (Some (a :: s)) wd) as Hd.
  unfold bind, ret.
  destruct (delete_user_vectors out (cu_user_id user) (Some (a :: s)) wd) as [[e|[]] w1];
    exact Hd.
Qed.

End PipelineFacts.

(** ** The reference world meets the assumptions, and the statements at
       concrete inputs *)

Lemma reference_respects_filter : store_respects_filter Reference.world.
Proof.
  intros c v f lim e pts e'. simpl.
  destruct (lim <? 0); [discriminate|]. intros [= <- <-].
  unfold Reference.search. apply Forall_take, Forall_map, Forall_forall.
  intros p Hp. apply list_elem_of_In in Hp. now apply filter_In in Hp as [_ Hp].
Qed.

Lemma reference_respects_limit : store_respects_limit Reference.world.
Proof.
  intros c v f lim e pts e'. simpl.
  destruct (lim <? 0) eqn:E; [discriminate|]. intros [= <- <-].
  unfold Reference.search. rewrite length_take. apply Z.ltb_ge in E. lia.
Qed.

Lemma query_rag_owner_containment_witness :
  Forall (fun s => owner_id s = PInt 2) (sources Reference.answer_for_user2).
Proof.
  apply (query_rag_owner_containment Reference.world (lit "what?") 2 (lit "user") 5
           (Reference.start Reference.corpus Reference.no_db)
           Reference.answer_for_user2
           (snd (query_rag Reference.world (lit "what?") 2 (lit "user") 5
                   (Reference.start Reference.corpus Reference.no_db)))).
  - exact reference_respects_filter.
  - vm_compute. discriminate.
  - vm_compute. reflexivity.
Defined.


Lemma query_rag_non_admin_search_filtered_witness :
  searches_filtered_by
    (Some {| must := [ {| key := "user_id"; match_ := {| value := PInt 2 |} |} ] |})
    (new_calls (Reference.start Reference.corpus Reference.no_db)
       (snd (query_rag Reference.world (lit "what?") 2 (lit "superuser") 5
               (Reference.start Reference.corpus Reference.no_db)))) /\
  (forall v e1,
     http_embed Reference.world (lit "what?")
       (env (Reference.start Reference.corpus Reference.no_db)) = (inr v, e1) ->
     In (QueryPointsCall COLLECTION v
           (Some {| must := [ {| key := "user_id";
                                 match_ := {| value := PInt 2 |} |} ] |}) 5)
        (new_calls (Reference.start Reference.corpus Reference.no_db)
           (snd (query_rag Reference.world (lit "what?") 2 (lit "superuser") 5
                   (Reference.start Reference.corpus Reference.no_db))))) /\
  (forall payload : gmap string PValue,
     satisfies
       (Some {| must := [ {| key := "user_id"; match_ := {| value := PInt 2 |} |} ] |})
       payload = true <->
     payload !! "user_id" = Some (PInt 2)) /\
  ~ (forall payload : gmap string PValue,
       satisfies
         (Some {| must := [ {| key := "user_id";
                               match_ := {| value := PInt 2 |} |} ] |})
         payload = true).
Proof.
  apply (query_rag_non_admin_search_filtered Reference.world (lit "what?") 2
           (lit "superuser") 5 (Reference.start Reference.corpus Reference.no_db)).
  vm_compute. discriminate.
Defined.

Lemma query_rag_sources_count_and_order_witness :
  length (sources Reference.answer_for_user2) =
    chunks_searched Reference.answer_for_user2 /\
  Z.of_nat (chunks_searched Reference.answer_for_user2) <= 5.
Proof.
  destruct (query_rag_sources_count_and_order Reference.world (lit "what?") 2
              (lit "user") 5 (Reference.start Reference.corpus Reference.no_db)
              Reference.answer_for_user2
              (snd (query_rag Reference.world (lit "what?") 2 (lit "user") 5
                      (Reference.start Reference.corpus Reference.no_db))))
    as (Hlen & Hlim & _).
  - vm_compute. reflexivity.
  - split; [exact Hlen | exact (Hlim reference_respects_limit)].
Defined.

Lemma ingest_document_rejects_blank_witness :
  exists msg,
    ingest_document Reference.world 2 (lit "empty.txt") [x20; x0a] (lit "text/plain")
      (Reference.start Reference.corpus Reference.no_db) =
    (inl (ValueError msg), Reference.start Reference.corpus Reference.no_db).
Proof.
  apply (ingest_document_rejects_blank Reference.world 2 (lit "empty.txt")
           [x20; x0a] (lit "text/plain") [32%N; 10%N]
           (Reference.start Reference.corpus Reference.no_db)).
  - vm_compute. reflexivity.
  - left. vm_compute. reflexivity.
Defined.

Lemma remove_document_admin_filter_witness :
  new_calls (Reference.start Reference.corpus Reference.office_db)
    (snd (remove_document Reference.world 7 Reference.admin1
            (Reference.start Reference.corpus Reference.office_db))) =
  [DeleteCall COLLECTION
     {| must := [ {| key := "user_id"; match_ := {| value := PInt 1 |} |};
                  {| key := "filename";
                     match_ := {| value := PStr (lit "a.txt") |} |} ] |}].
Proof.
  apply (remove_document_admin_filter Reference.world 7 Reference.admin1
           (Reference.start Reference.corpus Reference.office_db)
           Reference.document7).
  - reflexivity.
  - vm_compute. reflexivity.
  - vm_compute. discriminate.
Defined.

(** After the administrator has removed document 7 of user 2, the document
    row is gone and every vector of user 2 is still in the collection. *)
Example remove_document_admin_leaves_vectors :
  let w' := snd (remove_document Reference.world 7 Reference.admin1
                   (Reference.start Reference.corpus Reference.office_db)) in
  documents_user_id Reference.document7 = 2 /\
  cu_user_id Reference.admin1 = 1 /\
  documents (db w') = [] /\
  env w' = Reference.corpus.
Proof. vm_compute. repeat split. Qed.

(** Removing the account of user 2 deletes the vectors of user 2. *)
Example remove_user_deletes_target_vectors :
  let w' := snd (remove_user Reference.world 2 Reference.admin1
                   (Reference.start Reference.corpus Reference.office_db)) in
  new_calls (Reference.start Reference.corpus Reference.office_db) w' =
    [DeleteCall COLLECTION (owner_filter 2)] /\
  env w' = [Reference.record 3 "b.txt" 0 "beta"].
Proof. vm_compute. repeat split. Qed.

(** * Further properties *)

(** ** Stripping and normalizing again *)

Lemma lstrip_id s :
  match s with [] => True | c :: _ => isspace c = false end -> lstrip s = s.
Proof. destruct s as [|c r]; simpl; [reflexivity|]. now intros ->. Qed.

Lemma rstrip_id s : ends_nonspace s -> rstrip s = s.
Proof.
  intros [->|(p & c & -> & Hc)]; [reflexivity|].
  unfold rstrip. rewrite rev_app_distr. simpl. rewrite Hc.
  simpl. now rewrite rev_involutive.
Qed.

Lemma strip_head s :
  match strip s with [] => True | c :: _ => isspace c = false end.
Proof.
  unfold strip. pose proof (lstrip_head s) as Hh.
  destruct (rstrip_prefix (lstrip s)) as [q Hq].
  destruct (rstrip (lstrip s)) as [|c u]; [exact I|].
  rewrite Hq in Hh. exact Hh.
Qed.

Lemma strip_idem s : strip (strip s) = strip s.
Proof.
  unfold strip at 1. rewrite (lstrip_id (strip s)) by apply strip_head.
  apply rstrip_id. unfold strip. apply rstrip_ends_nonspace.
Qed.

Lemma only_spaces_app s1 s2 : only_spaces (s1 ++ s2) = only_spaces s1 && only_spaces s2.
Proof. apply forallb_app. Qed.

Lemma only_spaces_re_sub_ws b s : only_spaces (re_sub_ws b s) = true.
Proof.
  revert b. induction s as [|c r IH]; intros b; simpl; [reflexivity|].
  destruct (isspace c) eqn:E.
  - destruct b; [apply IH|]. simpl. apply IH.
  - simpl. rewrite E. simpl. apply IH.
Qed.

Lemma only_spaces_strip s : only_spaces s = true -> only_spaces (strip s) = true.
Proof.
  intros H. unfold strip.
  destruct (lstrip_suffix s) as [p Hp].
  destruct (rstrip_prefix (lstrip s)) as [q Hq].
  rewrite Hp, only_spaces_app in H. apply andb_true_iff in H as [_ H].
  rewrite Hq, only_spaces_app in H. now apply andb_true_iff in H as [H _].
Qed.

Lemma re_sub_ws_fixed b s :
  single_spaced b s = true -> only_spaces s = true -> re_sub_ws b s = s.
Proof.
  revert b. induction s as [|c r IH]; intros b; simpl; [reflexivity|].
  destruct (isspace c) eqn:E; simpl.
  - rewrite !andb_true_iff. intros [Hb Hs] [Hc Ho].
    apply N.eqb_eq in Hc. subst c.
    destruct b; [discriminate|]. now rewrite IH.
  - intros Hs Ho. now rewrite IH.
Qed.

Lemma normalize_only_spaces s : only_spaces (normalize s) = true.
Proof. apply only_spaces_strip, only_spaces_re_sub_ws. Qed.

Lemma normalize_head s :
  match normalize s with [] => True | c :: _ => isspace c = false end.
Proof. apply strip_head. Qed.

(** X1: normalizing twice is normalizing once, so chunking a text and
    chunking its normalized form give the same chunks. *)
Theorem normalize_idempotent (text : pystr) :
  normalize (normalize text) = normalize text /\
  chunk_text (normalize text) = chunk_text text.
Proof.
  assert (H : normalize (normalize text) = normalize text).
  { unfold normalize at 1.
    rewrite re_sub_ws_fixed.
    - unfold normalize. apply strip_idem.
    - apply normalize_well_spaced.
    - apply normalize_only_spaces. }
  split; [exact H|]. unfold chunk_text. now rewrite H.
Qed.

(** X2: in a normalized text the only whitespace character is U+0020, no two
    of them are adjacent, and the text neither starts nor ends with one. *)
Theorem normalize_shape (text : pystr) :
  Forall (fun c => isspace c = true -> c = space) (normalize text) /\
  single_spaced false (normalize text) = true /\
  match head (normalize text) with Some c => isspace c = false | None => True end /\
  match last (normalize text) with Some c => isspace c = false | None => True end.
Proof.
  split; [|split; [|split]].
  - apply Forall_forall. intros c Hc He.
    pose proof (normalize_only_spaces text) as Ho. unfold only_spaces in Ho.
    rewrite forallb_forall in Ho. apply list_elem_of_In in Hc.
    specialize (Ho c Hc). rewrite He in Ho. simpl in Ho. now apply N.eqb_eq.
  - apply normalize_well_spaced.
  - pose proof (normalize_head text) as H.
    now destruct (normalize text) as [|c r].
  - destruct (normalize_well_spaced text) as [_ [->|(p & c & -> & Hc)]];
      [exact I|].
    now rewrite last_snoc.
Qed.

(** ** The chunks of any text *)

Lemma window_count_le n k : (window_count n <= k <-> n <= k * CHUNK_STEP)%nat.
Proof.
  unfold window_count. change CHUNK_STEP with 450%nat.
  pose proof (Nat.div_mod_eq (n + (450 - 1)) 450).
  pose proof (Nat.mod_upper_bound (n + (450 - 1)) 450 ltac:(lia)).
  lia.
Qed.

(** On a normalized text the loop appends the windows [k], [k + 1], ... up
    to the last one. *)
Lemma chunk_loop_windows t : well_spaced t -> forall m k acc,
  (window_count (length t) - k = m)%nat ->
  chunk_loop t (k * CHUNK_STEP) acc = acc ++ map (window t) (seq k m).
Proof.
  intros Hw. induction m as [|m IH]; intros k acc Hm.
  - simpl. rewrite app_nil_r. apply chunk_loop_done.
    apply window_count_le. lia.
  - assert (Hlt : (k * CHUNK_STEP < length t)%nat).
    { destruct (le_lt_dec (length t) (k * CHUNK_STEP)) as [Hle|]; [|assumption].
      apply window_count_le in Hle. lia. }
    rewrite chunk_loop_step_ws by assumption.
    change (k * CHUNK_STEP + (CHUNK_SIZE - CHUNK_OVERLAP))%nat
      with (k * CHUNK_STEP + CHUNK_STEP)%nat.
    replace (k * CHUNK_STEP + CHUNK_STEP)%nat with (S k * CHUNK_STEP)%nat by lia.
    rewrite IH by lia. simpl. now rewrite <- app_assoc.
Qed.

Lemma chunk_text_as_windows text :
  chunk_text text =
  map (window (normalize text)) (seq 0 (window_count (length (normalize text)))).
Proof.
  rewrite chunk_text_unfold.
  exact (chunk_loop_windows (normalize text) (normalize_well_spaced text)
           (window_count (length (normalize text))) 0 [] (Nat.sub_0_r _)).
Qed.

(** X3: the chunks of a text are the stripped windows of its normalized form
    at offsets 0, 450, 900, ...: there are [ceil(n / 450)] of them for [n]
    normalized characters, and none is skipped. *)
Theorem chunk_text_windows (text : pystr) :
  chunk_text text =
    map (window (normalize text)) (seq 0 (window_count (length (normalize text)))) /\
  length (chunk_text text) = window_count (length (normalize text)).
Proof.
  split; [apply chunk_text_as_windows|].
  rewrite chunk_text_as_windows. now rewrite length_map, length_seq.
Qed.

Lemma chunk_text_nil_blank text : chunk_text text = [] <-> blank text = true.
Proof.
  rewrite <- normalize_nil_iff, chunk_text_as_windows.
  split.
  - intros H. apply (f_equal (@length _)) in H.
    rewrite length_map, length_seq in H. simpl in H.
    assert (Hle : (window_count (length (normalize text)) <= 0)%nat) by lia.
    apply window_count_le in Hle. simpl in Hle.
    destruct (normalize text); [reflexivity | simpl in Hle; lia].
  - intros ->. reflexivity.
Qed.

(** X4: [chunk_text] returns no chunk exactly for the empty and the
    whitespace-only texts. *)
Theorem chunk_text_nil_iff_blank (text : pystr) :
  chunk_text text = [] <-> blank text = true.
Proof. exact (chunk_text_nil_blank text). Qed.

Lemma chunk_loop_invariant (P : pystr -> Prop) t :
  (forall start, (start < length t)%nat ->
     truthy (strip (slice t start (start + CHUNK_SIZE))) = true ->
     P (strip (slice t start (start + CHUNK_SIZE)))) ->
  forall n start acc,
    (length t - start <= n)%nat -> Forall P acc -> Forall P (chunk_loop t start acc).
Proof.
  intros Hwin. induction n as [|n IH]; intros start acc Hn Hacc.
  - now rewrite chunk_loop_done by lia.
  - destruct (le_lt_dec (length t) start) as [Hle|Hlt].
    + now rewrite chunk_loop_done by lia.
    + rewrite chunk_loop_step by assumption. apply IH; [chunk_arith|].
      destruct (truthy (strip (slice t start (start + CHUNK_SIZE)))) eqn:E;
        [|assumption].
      apply Forall_app. split; [assumption|]. constructor; [|constructor].
      now apply Hwin.
Qed.

(** X5: every chunk is non-empty, at most [CHUNK_SIZE] characters long, and
    carries no whitespace at either end. *)
Theorem chunk_text_chunks_trimmed (text : pystr) :
  Forall (fun c => c <> [] /\ (length c <= CHUNK_SIZE)%nat /\ strip c = c)
         (chunk_text text).
Proof.
  rewrite chunk_text_unfold.
  apply (chunk_loop_invariant _ (normalize text)) with (n := length (normalize text));
    [|lia|constructor].
  intros start Hlt Ht. split; [|split].
  - intros E. now rewrite E in Ht.
  - etransitivity; [apply length_strip|]. unfold slice.
    rewrite length_take. lia.
  - apply strip_idem.
Qed.

(** ** Batches *)

Lemma concat_slices {A} (pts : list A) c :
  concat (map (fun i => slice pts i (i + 100)) (map (fun k => (0 + k * 100)%nat) (seq 0 c)))
  = take (c * 100) pts.
Proof.
  induction c as [|c IH]; [reflexivity|].
  rewrite seq_S, !map_app, concat_app, IH. simpl.
  rewrite app_nil_r. unfold slice.
  replace (c * 100 + 100 - c * 100)%nat with 100%nat by lia.
  rewrite take_take_drop. f_equal. lia.
Qed.

Lemma batch_count_bounds n k :
  (k < Nat.div (n - 0 + (100 - 1)) 100 <-> k * 100 < n)%nat.
Proof.
  pose proof (Nat.div_mod_eq (n - 0 + (100 - 1)) 100).
  pose proof (Nat.mod_upper_bound (n - 0 + (100 - 1)) 100 ltac:(lia)).
  lia.
Qed.

Lemma batches_concat {A} (points : list A) : concat (batches points 100) = points.
Proof.
  unfold batches, py_range. rewrite concat_slices. apply take_ge.
  destruct (le_lt_dec (length points)
              (Nat.div (length points - 0 + (100 - 1)) 100 * 100)) as [|Hlt];
    [assumption|].
  apply batch_count_bounds in Hlt. lia.
Qed.

Lemma batches_sizes {A} (points : list A) :
  Forall (fun b => (1 <= length b <= 100)%nat) (batches points 100).
Proof.
  unfold batches, py_range. apply Forall_forall. intros b Hb.
  apply list_elem_of_In, in_map_iff in Hb as (i & <- & Hi).
  apply in_map_iff in Hi as (k & <- & Hk).
  apply in_seq in Hk. destruct Hk as [_ Hk]. simpl in Hk.
  apply batch_count_bounds in Hk.
  unfold slice. rewrite length_take, length_drop. lia.
Qed.

(** X6: the upsert batches of [ingest_document] are a partition of the
    points: put end to end they are the list of points, and each holds
    between 1 and 100 of them. *)
Theorem batches_partition {A} (points : list A) :
  concat (batches points 100) = points /\
  Forall (fun b => (1 <= length b <= 100)%nat) (batches points 100).
Proof. split; [apply batches_concat | apply batches_sizes]. Qed.

(** ** Ingestion, retrieval and the endpoints *)

Section IngestionFacts.

Context {Env Vector Score : Type}.
Variable out : @Outside Env Vector Score.

Implicit Types w : @World Env Vector.

Lemma upserted_points_app (l1 l2 : list (@Event Vector)) :
  upserted_points (l1 ++ l2) = upserted_points l1 ++ upserted_points l2.
Proof. apply flat_map_app. Qed.

Lemma upserted_points_embeds (chunks : list (list N)) :
  upserted_points (map (@EmbedCall Vector) chunks) = [].
Proof. induction chunks; simpl; auto. Qed.

Lemma upserted_points_upserts c (bs : list (list (@PointStruct Vector))) :
  upserted_points (map (UpsertCall c) bs) = concat bs.
Proof. induction bs as [|b bs IH]; simpl; [reflexivity|]. now rewrite IH. Qed.

(** All runs of the embedding loop of [ingest_document]. *)
Lemma embed_loop_runs uid fname chunks : forall n acc w r w',
  for_each (imap (fun i c => ((n + i)%nat, c)) chunks)
    (embed_chunk out uid fname) acc w = (r, w') ->
  db w' = db w /\ qdrant w' = qdrant w /\
  ((exists j e t e0 e1,
      (j < length chunks)%nat /\ r = inl e /\
      http_embed out t e0 = (inl e, e1) /\
      calls w' = calls w ++ map EmbedCall (take (S j) chunks)) \/
   (exists new,
      r = inr (acc ++ new) /\
      calls w' = calls w ++ map EmbedCall chunks /\
      map ps_payload new = imap (fun i => ingest_payload uid fname (n + i)) chunks)).
Proof.
  induction chunks as [|c rest IH]; intros n acc w r w'.
  - simpl. intros [= <- <-]. repeat split. right. exists [].
    rewrite !app_nil_r. auto.
  - rewrite !imap_cons. cbn [for_each].
    rewrite (imap_ext _ (fun i c => ((S n + i)%nat, c)))
      by (intros; simpl; f_equal; lia).
    rewrite (imap_ext ((fun i => ingest_payload uid fname (n + i)) ∘ S)
               (fun i => ingest_payload uid fname (S n + i)))
      by (intros; simpl; f_equal; lia).
    unfold bind at 1. unfold embed_chunk at 1.
    unfold bind at 1. unfold get_embedding, net_call.
    destruct (http_embed out c (env (log_call (EmbedCall c) w))) as [[e|v] e'] eqn:He.
    + simpl. intros [= <- <-]. repeat split. left.
      exists 0%nat, e, c, (env w), e'. simpl. repeat split; auto. lia.
    + simpl. destruct (uuid4 out e') as [fresh e''] eqn:Hu.
      intros Hrun. apply (IH (S n)) in Hrun as (Hdb & Hq & Hcases).
      split; [exact Hdb|]. split; [exact Hq|].
      destruct Hcases as [(j & e & t & e0 & e1 & Hj & Hf & Hs & Hc)|(new & Hf & Hc & Hp)].
      * left. exists (S j), e, t, e0, e1. repeat split; auto; [simpl; lia|].
        rewrite Hc. simpl. now rewrite <- app_assoc.
      * right. eexists (_ :: new). split; [|split].
        -- rewrite Hf. now rewrite <- app_assoc.
        -- rewrite Hc. simpl. now rewrite <- app_assoc.
        -- simpl. rewrite Hp. reflexivity.
Qed.

(** All runs of the upsert loop of [ingest_document]. *)
Lemma upsert_loop_runs (g : nat -> list (@PointStruct Vector)) idxs : forall w r w',
  for_each idxs
    (fun (_ : unit) i =>
       net_call (UpsertCall COLLECTION (g i)) (qdrant_upsert out COLLECTION (g i)))
    tt w = (r, w') ->
  db w' = db w /\ qdrant w' = qdrant w /\
  ((r = inr tt /\
    calls w' = calls w ++ map (UpsertCall COLLECTION) (map g idxs)) \/
   (exists b e ps e0 e1,
      (b < length idxs)%nat /\ r = inl e /\
      qdrant_upsert out COLLECTION ps e0 = (inl e, e1) /\
      calls w' = calls w ++ map (UpsertCall COLLECTION) (take (S b) (map g idxs)))).
Proof.
  induction idxs as [|i rest IH]; intros w r w'.
  - simpl. intros [= <- <-]. repeat split. left. now rewrite app_nil_r.
  - cbn [for_each]. unfold bind at 1. unfold net_call at 1.
    destruct (qdrant_upsert out COLLECTION (g i) (env (log_call (UpsertCall COLLECTION (g i)) w)))
      as [[e|[]] e'] eqn:Hu.
    + simpl. intros [= <- <-]. repeat split. right.
      exists 0%nat, e, (g i), (env w), e'. simpl. repeat split; auto. lia.
    + intros Hrun. apply IH in Hrun as (Hdb & Hq & Hcases).
      split; [exact Hdb|]. split; [exact Hq|].
      destruct Hcases as [(-> & Hc)|(b & e & ps & e0 & e1 & Hb & -> & Hs & Hc)].
      * left. split; [reflexivity|]. rewrite Hc. simpl. now rewrite <- app_assoc.
      * right. exists (S b), e, ps, e0, e1. repeat split; auto; [simpl; lia|].
        rewrite Hc. simpl. now rewrite <- app_assoc.
Qed.

Lemma truthy_chunk_text text : blank text = false -> truthy (chunk_text text) = true.
Proof.
  intros Hb. destruct (chunk_text text) eqn:E; [|reflexivity].
  apply chunk_text_nil_blank in E. congruence.
Qed.

(** All runs of [ingest_document] on a text that is not blank. *)
Lemma ingest_document_runs uid fname content ctype text w r w' :
  extract_text out content ctype = inr text -> blank text = false ->
  ingest_document out uid fname content ctype w = (r, w') ->
  db w' = db w /\
  ((exists j e t e0 e1,
      (j < length (chunk_text text))%nat /\ r = inl e /\
      http_embed out t e0 = (inl e, e1) /\
      new_calls w w' = map EmbedCall (take (S j) (chunk_text text))) \/
   (exists pts,
      map ps_payload pts = imap (ingest_payload uid fname) (chunk_text text) /\
      ((r = inr (length (chunk_text text)) /\
        new_calls w w' =
          map EmbedCall (chunk_text text) ++
          map (UpsertCall COLLECTION) (batches pts 100)) \/
       (exists b e ps e0 e1,
          (b < length (batches pts 100))%nat /\ r = inl e /\
          qdrant_upsert out COLLECTION ps e0 = (inl e, e1) /\
          new_calls w w' =
            map EmbedCall (chunk_text text) ++
            map (UpsertCall COLLECTION) (take (S b) (batches pts 100)))))).
Proof.
  intros Hx Hb. unfold ingest_document. unfold bind at 1. unfold lift.
  rewrite Hx, truthy_strip, Hb, (truthy_chunk_text text Hb). cbn [negb].
  change (imap pair (chunk_text text))
    with (imap (fun i c => ((0 + i)%nat, c)) (chunk_text text)).
  unfold bind at 1.
  destruct (for_each _ (embed_chunk out uid fname) [] w) as [r1 w1] eqn:H1.
  apply embed_loop_runs in H1 as (Hdb1 & Hq1 & Hcases).
  destruct Hcases as [(j & e & t & e0 & e1 & Hj & -> & Hs & Hc)|(pts & -> & Hc & Hp)].
  - intros [= <- <-]. split; [exact Hdb1|]. left.
    exists j, e, t, e0, e1. repeat split; auto. now apply new_calls_app.
  - cbn [app]. unfold bind at 1.
    destruct (get_qdrant_run w1) as (c & w2 & -> & Hc2 & He2 & Hdb2).
    cbv zeta. unfold bind at 1.
    destruct (for_each _ _ tt w2) as [r3 w3] eqn:H3.
    apply (upsert_loop_runs (fun i => slice pts i (i + 100))) in H3
      as (Hdb3 & Hq3 & Hcases).
    fold (batches pts 100) in Hcases.
    destruct Hcases as [(-> & Hc3)|(b & e & ps & e0 & e1 & Hlt & -> & Hs & Hc3)].
    + unfold ret. intros [= <- <-]. split; [congruence|]. right.
      exists pts. split; [exact Hp|]. left. split; [reflexivity|].
      apply new_calls_app. rewrite Hc3, Hc2, Hc. now rewrite <- app_assoc.
    + intros [= <- <-]. split; [congruence|]. right.
      exists pts. split; [exact Hp|]. right.
      exists b, e, ps, e0, e1. repeat split; auto.
      * unfold batches. now rewrite length_map.
      * apply new_calls_app. rewrite Hc3, Hc2, Hc. now rewrite <- app_assoc.
Qed.

(** Runs of [ingest_document] that stop before the first call. *)
Lemma ingest_document_rejected uid fname content ctype w :
  (forall e, extract_text out content ctype = inl e ->
     ingest_document out uid fname content ctype w = (inl e, w)) /\
  (forall text, extract_text out content ctype = inr text -> blank text = true ->
     ingest_document out uid fname content ctype w =
     (inl (ValueError (lit "No text could be extracted from the document")), w)).
Proof.
  split.
  - intros e Hx. unfold ingest_document, bind, lift. now rewrite Hx.
  - intros text Hx Hb. unfold ingest_document, bind, lift, raise.
    now rewrite Hx, truthy_strip, Hb.
Qed.

Lemma new_calls_refl w : new_calls w w = [].
Proof. unfold new_calls. apply drop_all. Qed.

(** Every point [ingest_document] hands to the store comes from a chunk. *)
Lemma ingest_document_upserted uid fname content ctype text w :
  extract_text out content ctype = inr text ->
  Forall (fun p => exists i c,
            chunk_text text !! i = Some c /\
            ps_payload p = ingest_payload uid fname i c)
    (upserted_points
       (new_calls w (snd (ingest_document out uid fname content ctype w)))).
Proof.
  intros Hx. destruct (blank text) eqn:Hb.
  { rewrite (proj2 (ingest_document_rejected uid fname content ctype w) text Hx Hb).
    simpl. rewrite new_calls_refl. constructor. }
  destruct (ingest_document out uid fname content ctype w) as [r w'] eqn:Hrun.
  apply (ingest_document_runs _ _ _ _ text) in Hrun as (_ & Hcases); [|assumption..].
  simpl.
  assert (Hpts : forall (pts : list (@PointStruct Vector)) k,
             map ps_payload pts = imap (ingest_payload uid fname) (chunk_text text) ->
             Forall (fun p => exists i c,
                       chunk_text text !! i = Some c /\
                       ps_payload p = ingest_payload uid fname i c)
               (concat (take k (batches pts 100)))).
  { intros pts k Hp. apply Forall_forall. intros p Hin.
    assert (Hin' : p ∈ pts).
    { rewrite <- (batches_concat pts).
      apply list_elem_of_In, in_concat in Hin as (b & Hb1 & Hb2).
      apply list_elem_of_In, in_concat. exists b. split; [|exact Hb2].
      apply list_elem_of_In. apply list_elem_of_In in Hb1.
      now apply (subseteq_take k). }
    apply list_elem_of_lookup_1 in Hin' as [i Hi].
    assert (Hl : map ps_payload pts !! i = Some (ps_payload p)).
    { change (map ps_payload pts) with (ps_payload <$> pts).
      now rewrite list_lookup_fmap, Hi. }
    rewrite Hp, list_lookup_imap in Hl.
    destruct (chunk_text text !! i) as [c|] eqn:Hc; [|discriminate].
    simpl in Hl. exists i, c. split; [exact Hc | congruence]. }
  destruct Hcases as [(j & e & t & e0 & e1 & _ & _ & _ & ->)
                     |(pts & Hp & [(_ & ->)|(b & e & ps & e0 & e1 & _ & _ & _ & ->)])].
  - rewrite upserted_points_embeds. constructor.
  - rewrite upserted_points_app, upserted_points_embeds, upserted_points_upserts.
    simpl. rewrite <- (take_ge (batches pts 100) (length (batches pts 100))) by lia.
    now apply Hpts.
  - rewrite upserted_points_app, upserted_points_embeds, upserted_points_upserts.
    simpl. now apply Hpts.
Qed.

Lemma ingest_document_ok uid fname content ctype text w :
  embedding_up out -> upsert_up out ->
  extract_text out content ctype = inr text -> blank text = false ->
  exists w' pts,
    ingest_document out uid fname content ctype w =
      (inr (length (chunk_text text)), w') /\
    (1 <= length (chunk_text text))%nat /\
    map ps_payload pts = imap (ingest_payload uid fname) (chunk_text text) /\
    new_calls w w' =
      map EmbedCall (chunk_text text) ++ map (UpsertCall COLLECTION) (batches pts 100).
Proof.
  intros Hemb Hup Hx Hb.
  destruct (ingest_document out uid fname content ctype w) as [r w'] eqn:Hrun.
  pose proof (truthy_chunk_text text Hb) as Hne.
  apply (ingest_document_runs _ _ _ _ text) in Hrun as (_ & Hcases); [|assumption..].
  destruct Hcases as [(j & e & t & e0 & e1 & _ & _ & Hs & _)
                     |(pts & Hp & [(-> & Hc)|(b & e & ps & e0 & e1 & _ & _ & Hs & _)])].
  - destruct (Hemb t e0) as (v & e' & Hv). congruence.
  - exists w', pts. repeat split; auto.
    destruct (chunk_text text); [discriminate | simpl; lia].
  - destruct (Hup COLLECTION ps e0) as (e' & Hv). congruence.
Qed.

(** X7: when the embedding service and the vector store answer every
    request, ingesting a text that is not blank returns the number of its
    chunks, which is at least one; it embeds the chunks in order, then upserts
    the points, chunk [i] with the payload [ingest_payload user_id filename i],
    in batches of 100. *)
Theorem ingest_document_succeeds uid fname content ctype text w :
  embedding_up out -> upsert_up out ->
  extract_text out content ctype = inr text -> blank text = false ->
  exists w' pts,
    ingest_document out uid fname content ctype w =
      (inr (length (chunk_text text)), w') /\
    (1 <= length (chunk_text text))%nat /\
    map ps_payload pts = imap (ingest_payload uid fname) (chunk_text text) /\
    new_calls w w' =
      map EmbedCall (chunk_text text) ++ map (UpsertCall COLLECTION) (batches pts 100).
Proof. apply ingest_document_ok. Qed.

(** X8: whatever happens during a run, every point [ingest_document] hands to
    the vector store is built from a chunk of the text: it carries the
    uploader's [user_id], the file name, the chunk's index and the chunk. *)
Theorem ingest_document_tags_points uid fname content ctype text w :
  extract_text out content ctype = inr text ->
  Forall (fun p => exists i c,
            chunk_text text !! i = Some c /\
            ps_payload p = ingest_payload uid fname i c)
    (upserted_points
       (new_calls w (snd (ingest_document out uid fname content ctype w)))).
Proof. apply ingest_document_upserted. Qed.

Lemma no_write_in_embeds (chunks : list (list N)) :
  existsb is_write_call (map (@EmbedCall Vector) chunks) = false.
Proof. induction chunks; simpl; auto. Qed.

Lemma upserts_are_upserts c (bs : list (list (@PointStruct Vector))) :
  forallb is_upsert_call (map (UpsertCall c) bs) = true.
Proof. induction bs; simpl; auto. Qed.

(** X9: [ingest_document] writes to the vector store only after every chunk
    has been embedded: a run that issued a write has first issued the
    embedding call of each chunk, in order, and nothing but upserts after
    them. A run that fails while embedding has written nothing. *)
Theorem ingest_document_embeds_first uid fname content ctype text w :
  extract_text out content ctype = inr text ->
  existsb is_write_call
    (new_calls w (snd (ingest_document out uid fname content ctype w))) = true ->
  exists ups,
    new_calls w (snd (ingest_document out uid fname content ctype w)) =
      map EmbedCall (chunk_text text) ++ ups /\
    forallb is_upsert_call ups = true.
Proof.
  intros Hx. destruct (blank text) eqn:Hb.
  { rewrite (proj2 (ingest_document_rejected uid fname content ctype w) text Hx Hb).
    simpl. rewrite new_calls_refl. discriminate. }
  destruct (ingest_document out uid fname content ctype w) as [r w'] eqn:Hrun.
  apply (ingest_document_runs _ _ _ _ text) in Hrun as (_ & Hcases); [|assumption..].
  simpl.
  destruct Hcases as [(j & e & t & e0 & e1 & _ & _ & _ & ->)
                     |(pts & Hp & [(_ & ->)|(b & e & ps & e0 & e1 & _ & _ & _ & ->)])].
  - rewrite no_write_in_embeds. discriminate.
  - intros _. eexists. split; [reflexivity | apply upserts_are_upserts].
  - intros _. eexists. split; [reflexivity | apply upserts_are_upserts].
Qed.

Lemma ingest_payload_user uid fname i c :
  ingest_payload uid fname i c !! "user_id" = Some (PInt uid).
Proof. unfold ingest_payload. apply lookup_insert_eq. Qed.

Lemma ingest_payload_filename uid fname i c :
  ingest_payload uid fname i c !! "filename" = Some (PStr fname).
Proof.
  unfold ingest_payload. rewrite lookup_insert_ne by discriminate.
  apply lookup_insert_eq.
Qed.

Lemma ingest_payload_visible uid fname i c role caller :
  satisfies (rbac_filter role caller) (ingest_payload uid fname i c) = true <->
  role = lit "admin" \/ caller = uid.
Proof.
  unfold rbac_filter. case_bool_decide as Hr.
  - simpl. tauto.
  - rewrite satisfies_owner_filter, ingest_payload_user.
    split.
    + intros [= ->]. now right.
    + intros [Ha| ->]; [contradiction | reflexivity].
Qed.

(** X10: a point written by [ingest_document] for owner [user_id] passes the
    search filter of a caller exactly when the caller's role is "admin" or
    the caller is that owner. *)
Theorem ingested_points_visibility uid fname content ctype w :
  Forall (fun p => forall role caller,
            satisfies (rbac_filter role caller) (ps_payload p) = true <->
            role = lit "admin" \/ caller = uid)
    (upserted_points
       (new_calls w (snd (ingest_document out uid fname content ctype w)))).
Proof.
  destruct (extract_text out content ctype) as [e|text] eqn:Hx.
  - rewrite (proj1 (ingest_document_rejected uid fname content ctype w) e Hx).
    simpl. rewrite new_calls_refl. constructor.
  - eapply Forall_impl; [exact (ingest_document_upserted _ _ _ _ text w Hx)|].
    intros p (i & c & _ & ->) role caller. apply ingest_payload_visible.
Qed.

Lemma blank_join sep parts :
  blank sep = true -> Forall (fun t => blank t = true) parts ->
  blank (join sep parts) = true.
Proof.
  intros Hs. induction 1 as [|p rest Hp Hrest IH]; [reflexivity|].
  destruct rest as [|q rest]; [exact Hp|].
  change (join sep (p :: q :: rest)) with (p ++ sep ++ join sep (q :: rest)).
  now rewrite !blank_app, Hp, Hs, IH.
Qed.

(** X11: a PDF whose pages hold nothing but whitespace is rejected with
    [ValueError] before any call is made; the world is unchanged. *)
Theorem ingest_document_pdf_without_text uid fname content pages w :
  pdf_page_texts out content = inr pages ->
  Forall (fun t => blank t = true) pages ->
  ingest_document out uid fname content (lit "application/pdf") w =
  (inl (ValueError (lit "No text could be extracted from the document")), w).
Proof.
  intros Hp Hb.
  apply (proj2 (ingest_document_rejected uid fname content _ w)
           (join (lit (String "010"%char EmptyString)) (nonempty_pages pages))).
  - unfold extract_text. rewrite bool_decide_eq_true_2 by reflexivity.
    unfold extract_text_from_pdf. now rewrite Hp.
  - apply blank_join; [reflexivity|].
    apply Forall_forall. intros t Ht. rewrite Forall_forall in Hb.
    apply Hb. unfold nonempty_pages in Ht.
    apply list_elem_of_In, filter_In in Ht as [Ht _]. now apply list_elem_of_In.
Qed.

(** X12: the filter [delete_user_vectors] sends selects a point written by
    [ingest_document] exactly when the owner is the same and either no file
    name was given (or an empty one) or the file name is the same. *)
Theorem delete_user_vectors_selects u fn w uid fname i c :
  exists f,
    new_calls w (snd (delete_user_vectors out u fn w)) = [DeleteCall COLLECTION f] /\
    (satisfies (Some f) (ingest_payload uid fname i c) = true <->
     u = uid /\ (truthy_opt fn = false \/ fn = Some fname)).
Proof.
  eexists. split; [apply delete_user_vectors_calls|].
  unfold satisfies, condition_holds. cbn [must forallb key match_ value].
  rewrite ingest_payload_user.
  destruct fn as [[|a s]|]; cbn [truthy truthy_opt forallb key match_ value].
  - rewrite andb_true_r, bool_decide_eq_true. split.
    + intros [= ->]. auto.
    + intros [-> _]. reflexivity.
  - rewrite ingest_payload_filename, andb_true_r, andb_true_iff, !bool_decide_eq_true.
    split.
    + intros [[= ->] [= ->]]. auto.
    + intros [-> [Ht|[= ->]]]; [discriminate | auto].
  - rewrite andb_true_r, bool_decide_eq_true. split.
    + intros [= ->]. auto.
    + intros [-> _]. reflexivity.
Qed.

End IngestionFacts.

Section RetrievalFacts.

Context {Env Vector Score : Type}.
Variable out : @Outside Env Vector Score.

Implicit Types w : @World Env Vector.

Lemma query_rag_db q uid role k w :
  db (snd (query_rag out q uid role k w)) = db w.
Proof.
  unfold query_rag, bind, get_embedding, llm_generate, net_call, lift, ret. simpl.
  destruct (http_embed out q (env w)) as [[e|v] e1]; [reflexivity|].
  destruct (get_qdrant_run (set_env e1 (log_call (EmbedCall q) w)))
    as (c & w1 & -> & _ & He & Hdb).
  simpl in *. rewrite He.
  destruct (qdrant_query_points out COLLECTION v (rbac_filter role uid) k e1)
    as [[e|pts] e2]; [exact Hdb|].
  destruct pts as [|p pts]; cbn [truthy negb collect_points]; [exact Hdb|].
  destruct (collect_point out ([], []) p) as [|acc1]; [exact Hdb|].
  destruct (collect_points out acc1 pts) as [|[cp srcs]]; [exact Hdb|].
  destruct (join_values _ cp) as [|context]; [exact Hdb|].
  simpl. destruct (http_generate out _ _ e2) as [[e|ans] e3]; exact Hdb.
Qed.

(** X13: an administrator's search carries no filter: every search call of
    [query_rag] with role "admin" has [query_filter = None], and once the
    question is embedded that search is issued. *)
Theorem query_rag_admin_unfiltered q uid k w :
  searches_filtered_by None
    (new_calls w (snd (query_rag out q uid (lit "admin") k w))) /\
  (forall v e1, http_embed out q (env w) = (inr v, e1) ->
     In (QueryPointsCall COLLECTION v None k)
        (new_calls w (snd (query_rag out q uid (lit "admin") k w)))).
Proof.
  pose proof (query_rag_calls out q uid (lit "admin") k w) as H.
  assert (Hf : rbac_filter (lit "admin") uid = None).
  { unfold rbac_filter. now rewrite bool_decide_eq_true_2. }
  rewrite Hf in H. unfold searches_filtered_by.
  destruct (http_embed out q (env w)) as [[e|v] e1].
  - rewrite H. split; [repeat constructor | discriminate].
  - destruct H as [H|(p & s & H)]; rewrite H;
      (split; [repeat constructor | intros v' e1' [= <- <-]; simpl; auto]).
Qed.

(** X14: [query_rag] only reads: whatever the services answer, it issues no
    upsert and no delete, its first call is the embedding of the question, it
    calls the generation service at most once, and it leaves the relational
    store alone. *)
Theorem query_rag_read_only q uid role k w :
  existsb is_write_call (new_calls w (snd (query_rag out q uid role k w))) = false /\
  head (new_calls w (snd (query_rag out q uid role k w))) = Some (EmbedCall q) /\
  (length (List.filter is_generate_call
             (new_calls w (snd (query_rag out q uid role k w)))) <= 1)%nat /\
  db (snd (query_rag out q uid role k w)) = db w.
Proof.
  pose proof (query_rag_calls out q uid role k w) as H.
  pose proof (query_rag_db q uid role k w) as Hdb.
  destruct (http_embed out q (env w)) as [[e|v] e1].
  - rewrite H. simpl. repeat split; auto.
  - destruct H as [H|(p & s & H)]; rewrite H; simpl; repeat split; auto.
Qed.





Lemma collect_point_inv cp srcs (p : @ScoredPoint Score) r :
  collect_point out (cp, srcs) p = r ->
  (exists key, r = inl (KeyError key)) \/
  (exists v s, r = inr (cp ++ [v], srcs ++ [s]) /\
               point_payload p !! "text" = Some v /\
               is_Some (point_payload p !! "filename") /\
               is_Some (point_payload p !! "chunk_index") /\
               is_Some (point_payload p !! "user_id")).
Proof.
  unfold collect_point, getitem. intros <-.
  destruct (point_payload p !! "text"); [|left; eauto].
  destruct (point_payload p !! "filename"); [|left; eauto].
  destruct (point_payload p !! "chunk_index"); [|left; eauto].
  destruct (point_payload p !! "user_id"); [|left; eauto].
  right. eauto 10.
Qed.

Lemma collect_points_inv (pts : list (@ScoredPoint Score)) : forall cp srcs r,
  collect_points out (cp, srcs) pts = r ->
  (exists key, r = inl (KeyError key)) \/
  (exists vals srcs',
     r = inr (cp ++ vals, srcs') /\
     Forall2 (fun p v => point_payload p !! "text" = Some v /\
                         is_Some (point_payload p !! "filename") /\
                         is_Some (point_payload p !! "chunk_index") /\
                         is_Some (point_payload p !! "user_id")) pts vals).
Proof.
  induction pts as [|p pts IH]; intros cp srcs r; cbn [collect_points].
  - intros <-. right. exists [], srcs. rewrite app_nil_r. split; [reflexivity|constructor].
  - destruct (collect_point_inv cp srcs p _ eq_refl)
      as [(key & ->)|(v & s & -> & Hv)].
    + intros <-. left. eauto.
    + intros Hr. apply IH in Hr as [?|(vals & srcs' & -> & Hf)]; [now left|].
      right. exists (v :: vals), srcs'. split; [now rewrite <- app_assoc|].
      now constructor.
Qed.

Lemma as_strs_inv l :
  as_strs l = inl TypeError \/ exists strs, as_strs l = inr strs /\ l = map PStr strs.
Proof.
  induction l as [|[n|s] l IH]; simpl.
  - right. now exists [].
  - now left.
  - destruct IH as [->|(strs & -> & ->)]; [now left|].
    right. now exists (s :: strs).
Qed.

Lemma texts_renderable (pts : list (@ScoredPoint Score)) : forall strs,
  Forall2 (fun p v => point_payload p !! "text" = Some v /\
                      is_Some (point_payload p !! "filename") /\
                      is_Some (point_payload p !! "chunk_index") /\
                      is_Some (point_payload p !! "user_id")) pts (map PStr strs) ->
  Forall (fun p => renderable (point_payload p)) pts.
Proof.
  induction pts as [|p pts IH]; intros strs H; [constructor|].
  destruct strs as [|t strs]; inversion H as [|? ? ? ? (Ht & Hrest) Hf]; subst.
  constructor; [|now apply (IH strs)].
  split; [now exists t | exact Hrest].
Qed.

(** X16: when a returned payload lacks one of the keys [query_rag] reads, or
    holds something other than a string under "text", [query_rag] raises
    [KeyError] or [TypeError]; it has embedded the question and searched, and
    the generation service is not called. *)
Theorem query_rag_malformed_payload q uid role k w v e1 pts e2 :
  http_embed out q (env w) = (inr v, e1) ->
  qdrant_query_points out COLLECTION v (rbac_filter role uid) k e1 = (inr pts, e2) ->
  Exists (fun p => ~ renderable (point_payload p)) pts ->
  exists e w',
    query_rag out q uid role k w = (inl e, w') /\
    (e = TypeError \/ exists key, e = KeyError key) /\
    new_calls w w' =
      [EmbedCall q; QueryPointsCall COLLECTION v (rbac_filter role uid) k].
Proof.
  intros Hemb Hq Hex.
  unfold query_rag, bind, get_embedding, llm_generate, net_call, lift, ret. simpl.
  rewrite Hemb.
  destruct (get_qdrant_run (set_env e1 (log_call (EmbedCall q) w)))
    as (c & w1 & -> & Hc & He & _).
  simpl in *. rewrite He, Hq.
  assert (Hn : forall w0 : @World Env Vector,
             calls w0 = calls w1 ++
               [QueryPointsCall COLLECTION v (rbac_filter role uid) k] ->
             new_calls w w0 =
               [EmbedCall q; QueryPointsCall COLLECTION v (rbac_filter role uid) k]).
  { intros w0 H0. apply new_calls_app. rewrite H0, Hc, <- app_assoc. reflexivity. }
  destruct pts as [|p pts]; [inversion Hex|]. cbn [truthy negb].
  destruct (collect_points_inv (p :: pts) [] [] _ eq_refl)
    as [(key & ->)|(vals & srcs & -> & Hf)].
  { do 2 eexists. split; [reflexivity|]. split; [eauto|]. now apply Hn. }
  cbn [app]. unfold join_values.
  destruct (as_strs_inv vals) as [->|(strs & -> & ->)].
  { do 2 eexists. split; [reflexivity|]. split; [auto|]. now apply Hn. }
  exfalso. apply Exists_exists in Hex as (p0 & Hin & Hnr). apply Hnr.
  apply texts_renderable in Hf. rewrite Forall_forall in Hf. now apply Hf.
Qed.

End RetrievalFacts.

Section EndpointFacts.

Context {Env Vector Score : Type}.
Variable out : @Outside Env Vector Score.
Variable next_rowid : Database -> Z.

Implicit Types w : @World Env Vector.

Lemma delete_user_vectors_db uid fn w :
  db (snd (delete_user_vectors out uid fn w)) = db w.
Proof.
  unfold delete_user_vectors, bind, net_call.
  destruct (get_qdrant_run w) as (c & w1 & -> & _ & _ & Hdb).
  match goal with |- context [qdrant_delete ?o ?c ?f ?e] =>
    destruct (qdrant_delete o c f e) as [r e'] end.
  exact Hdb.
Qed.

Lemma database_eta (d : Database) : {| users := users d; documents := documents d |} = d.
Proof. now destruct d. Qed.

Lemma filter_all_false {A} (f : A -> bool) l :
  Forall (fun x => f x = false) l ->
  List.filter f l = [] /\ List.filter (fun x => negb (f x)) l = l.
Proof.
  induction 1 as [|x l Hx Hl [IH1 IH2]]; [now split|].
  simpl. rewrite Hx. simpl. now rewrite IH2.
Qed.

(** X17: a caller whose role is not "admin" gets a 403 from [remove_user]
    and from [change_role], and nothing has happened: no call, no change to
    the tables. *)
Theorem endpoints_require_admin target req_role user w :
  cu_role user <> lit "admin" ->
  remove_user out target user w =
    (inl (HTTPException 403 (lit "Admin access required")), w) /\
  change_role target req_role user w =
    (inl (HTTPException 403 (lit "Admin access required")), w).
Proof.
  intros Hrole. unfold remove_user, change_role, require_admin.
  rewrite bool_decide_eq_false_2 by exact Hrole. split; reflexivity.
Qed.

(** X18: [remove_user] deletes the vectors before it looks at the account:
    when no row with that id can be deleted (the id is unknown or belongs to
    an administrator) and the vector store accepts the delete, the vectors of
    that id are gone, the answer is a 404 and the tables are unchanged. *)
Theorem remove_user_deletes_vectors_first target user w e' :
  cu_role user = lit "admin" ->
  Forall (fun r => users_id r <> target \/ users_role r = lit "admin") (users (db w)) ->
  qdrant_delete out COLLECTION (owner_filter target) (env w) = (inr tt, e') ->
  exists w',
    remove_user out target user w =
      (inl (HTTPException 404 (lit "User not found or is admin")), w') /\
    new_calls w w' = [DeleteCall COLLECTION (owner_filter target)] /\
    env w' = e' /\ db w' = db w.
Proof.
  intros Hrole Hrows Hdel. unfold remove_user, require_admin.
  rewrite Hrole, bool_decide_eq_true_2 by reflexivity. cbn [negb].
  unfold bind at 1. unfold ret at 1. unfold bind at 1.
  unfold delete_user_vectors, bind at 1, net_call.
  destruct (get_qdrant_run w) as (c & w1 & -> & Hc & He & Hdb).
  fold (owner_filter target). simpl env. rewrite He, Hdel.
  unfold bind, delete_user. cbn [db set_env log_call]. rewrite !Hdb.
  destruct (filter_all_false
              (fun r => bool_decide (users_id r = target)
                        && negb (bool_decide (users_role r = lit "admin")))
              (users (db w))) as [H1 H2].
  { eapply Forall_impl; [exact Hrows|]. intros r [Hid|Hr].
    - now rewrite (bool_decide_eq_false_2 _ Hid).
    - rewrite (bool_decide_eq_true_2 _ Hr). apply andb_false_r. }
  rewrite H1, H2. cbn [truthy negb]. unfold raise.
  eexists. split; [reflexivity|]. split; [|split].
  - apply new_calls_app. simpl. now rewrite Hc.
  - reflexivity.
  - simpl. apply database_eta.
Qed.

Lemma remove_user_db target user w r w' :
  remove_user out target user w = (r, w') ->
  db w' = db w \/
  db w' = {| users :=
               List.filter
                 (fun r => negb (bool_decide (users_id r = target)
                                 && negb (bool_decide (users_role r = lit "admin"))))
                 (users (db w));
             documents := documents (db w) |}.
Proof.
  unfold remove_user, require_admin.
  destruct (bool_decide (cu_role user = lit "admin")); cbn [negb];
    [|intros [= <- <-]; now left].
  unfold bind at 1. unfold ret at 1. unfold bind at 1.
  pose proof (delete_user_vectors_db target None w) as Hdb.
  destruct (delete_user_vectors out target None w) as [[e|[]] w1];
    [intros [= <- <-]; now left|].
  simpl in Hdb. unfold bind, delete_user. rewrite Hdb.
  match goal with |- context [negb (truthy ?l)] => destruct (truthy l) end;
    cbn [negb]; intros [= <- <-]; now right.
Qed.

(** X19: no run of [remove_user] deletes the row of an administrator or of
    a user with another id, and none changes the [documents] table: the
    documents of a removed user stay recorded. *)
Theorem remove_user_keeps_admins_and_documents target user w :
  documents (db (snd (remove_user out target user w))) = documents (db w) /\
  Forall (fun r => users_id r <> target \/ users_role r = lit "admin" ->
                   r ∈ users (db (snd (remove_user out target user w))))
         (users (db w)).
Proof.
  destruct (remove_user out target user w) as [r w'] eqn:Hrun.
  apply remove_user_db in Hrun. simpl.
  destruct Hrun as [->| ->]; (split; [reflexivity|]); apply Forall_forall.
  - auto.
  - intros row Hin Hkeep. simpl.
    apply list_elem_of_In, filter_In. split; [now apply list_elem_of_In|].
    destruct Hkeep as [Hid|Hr].
    + now rewrite (bool_decide_eq_false_2 _ Hid).
    + rewrite (bool_decide_eq_true_2 _ Hr). now rewrite andb_false_r.
Qed.

Lemma NoDup_map_inj_on {A B} (f : A -> B) (l : list A) x y :
  NoDup (map f l) -> In x l -> In y l -> f x = f y -> x = y.
Proof.
  induction l as [|a l IH]; simpl; [tauto|].
  intros Hnd [->|Hx] [->|Hy] Hf; auto.
  - apply NoDup_cons in Hnd as [Hnot _]. exfalso. apply Hnot.
    rewrite Hf. apply list_elem_of_In, in_map, Hy.
  - apply NoDup_cons in Hnd as [Hnot _]. exfalso. apply Hnot.
    rewrite <- Hf. apply list_elem_of_In, in_map, Hx.
  - apply NoDup_cons in Hnd as [_ Hnd]. auto.
Qed.

Lemma head_filter_In {A} (f : A -> bool) l x :
  head (List.filter f l) = Some x -> In x l /\ f x = true.
Proof.
  intros H. apply filter_In.
  destruct (List.filter f l) as [|y t]; [discriminate|].
  injection H as ->. now left.
Qed.

Lemma delete_document_run doc_id (uid : option Z) w :
  delete_document doc_id uid w = (inr None, w) \/
  exists row,
    In row (documents (db w)) /\ documents_id row = doc_id /\
    (truthy_id uid = false \/ Some (documents_user_id row) = uid) /\
    delete_document doc_id uid w =
      (inr (Some (documents_filename row)),
       set_db {| users := users (db w);
                 documents :=
                   List.filter (fun r => negb (bool_decide (documents_id r = doc_id)))
                               (documents (db w)) |} w).
Proof.
  unfold delete_document. destruct (truthy_id uid) eqn:Ht.
  - destruct (head _) as [row|] eqn:Hh; [|now left].
    right. exists row. apply head_filter_In in Hh as [Hin Hf].
    apply andb_true_iff in Hf as [H1 H2].
    apply bool_decide_eq_true in H1. apply bool_decide_eq_true in H2. auto 6.
  - destruct (head _) as [row|] eqn:Hh; [|now left].
    right. exists row. apply head_filter_In in Hh as [Hin Hf].
    apply bool_decide_eq_true in Hf. auto 6.
Qed.

(** All runs of [remove_document]: the tables are as before, or the row the
    caller may delete is gone. *)
Lemma remove_document_db doc_id user w r w' :
  remove_document out doc_id user w = (r, w') ->
  db w' = db w \/
  exists row,
    In row (documents (db w)) /\ documents_id row = doc_id /\
    (cu_role user = lit "admin" \/ cu_user_id user = 0 \/
     documents_user_id row = cu_user_id user) /\
    db w' = {| users := users (db w);
               documents :=
                 List.filter (fun r => negb (bool_decide (documents_id r = doc_id)))
                             (documents (db w)) |}.
Proof.
  unfold remove_document. unfold bind at 1.
  assert (Hrest : forall (o : option (list N)) (w0 : @World Env Vector),
            (if negb (truthy_opt o)
             then raise (HTTPException 404 (lit "Document not found"))
             else bind (delete_user_vectors out (cu_user_id user) o)
                    (fun _ => ret (lit "Document '" ++ default [] o
                                   ++ lit "' and its vectors deleted")))
              w0 = (r, w') -> db w' = db w0).
  { intros o w0. destruct (negb (truthy_opt o)); [now intros [= <- <-]|].
    unfold bind, ret.
    pose proof (delete_user_vectors_db (cu_user_id user) o w0) as Hdb.
    destruct (delete_user_vectors out (cu_user_id user) o w0) as [[e|[]] w1];
      intros [= <- <-]; exact Hdb. }
  case_bool_decide as Hrole.
  - destruct (delete_document_run doc_id None w)
      as [->|(row & Hin & Hid & _ & ->)]; intros Hrun; apply Hrest in Hrun.
    + now left.
    + right. exists row. auto.
  - destruct (delete_document_run doc_id (Some (cu_user_id user)) w)
      as [->|(row & Hin & Hid & Hown & ->)]; intros Hrun; apply Hrest in Hrun.
    + now left.
    + right. exists row. repeat split; auto.
      destruct Hown as [Hz|[= Hu]]; [|auto].
      simpl in Hz. apply negb_false_iff, Z.eqb_eq in Hz. auto.
Qed.

(** X20: a caller who is not an administrator cannot remove another user's
    document: over any run of [remove_document], every row of [documents]
    owned by someone else is still there, and [users] is unchanged. (Ids are
    unique: [id] is the primary key; a caller id of 0 would switch the
    ownership test off.) *)
Theorem remove_document_respects_ownership doc_id user w :
  cu_role user <> lit "admin" -> cu_user_id user <> 0 ->
  NoDup (map documents_id (documents (db w))) ->
  users (db (snd (remove_document out doc_id user w))) = users (db w) /\
  Forall (fun r => documents_user_id r <> cu_user_id user ->
                   r ∈ documents (db (snd (remove_document out doc_id user w))))
         (documents (db w)).
Proof.
  intros Hrole Hid0 Hnd.
  destruct (remove_document out doc_id user w) as [r w'] eqn:Hrun.
  apply remove_document_db in Hrun. simpl.
  destruct Hrun as [->|(row & Hin & Hid & Hown & ->)];
    (split; [reflexivity|]); apply Forall_forall; [auto|].
  intros r0 Hr0 Hother. simpl.
  apply list_elem_of_In, filter_In. apply list_elem_of_In in Hr0.
  split; [exact Hr0|].
  apply negb_true_iff, bool_decide_eq_false. intros Heq.
  destruct Hown as [?|[?|Hown]]; [contradiction..|].
  assert (r0 = row)
    by (apply (NoDup_map_inj_on documents_id (documents (db w))); congruence).
  congruence.
Qed.

Lemma head_filter_unique {A} (f : A -> bool) (g : A -> Z) l row :
  NoDup (map g l) -> In row l -> f row = true ->
  (forall x, f x = true -> g x = g row) ->
  head (List.filter f l) = Some row.
Proof.
  intros Hnd Hin Hf Hg.
  destruct (List.filter f l) as [|x t] eqn:E.
  - assert (H : In row (List.filter f l)) by (apply filter_In; auto).
    rewrite E in H. destruct H.
  - simpl. f_equal.
    assert (H : In x (List.filter f l)) by (rewrite E; now left).
    apply filter_In in H as [Hx Hfx].
    apply (NoDup_map_inj_on g l); auto.
Qed.

(** X21: when a caller who is not an administrator removes a document of
    their own, the vector deletion is scoped to the document's owner and its
    file name, and no row with that id is left in [documents]. *)
Theorem remove_document_owner_filter doc_id user w row :
  cu_role user <> lit "admin" -> cu_user_id user <> 0 ->
  NoDup (map documents_id (documents (db w))) ->
  In row (documents (db w)) ->
  documents_id row = doc_id ->
  documents_user_id row = cu_user_id user ->
  documents_filename row <> [] ->
  new_calls w (snd (remove_document out doc_id user w)) =
    [DeleteCall COLLECTION
       {| must := [ {| key := "user_id";
                       match_ := {| value := PInt (documents_user_id row) |} |};
                    {| key := "filename";
                       match_ := {| value := PStr (documents_filename row) |} |} ] |}] /\
  Forall (fun r => documents_id r <> doc_id)
         (documents (db (snd (remove_document out doc_id user w)))).
Proof.
  intros Hrole Hid0 Hnd Hin Hid Hown Hname.
  unfold remove_document.
  rewrite bool_decide_eq_false_2 by exact Hrole.
  unfold bind at 1 3. unfold delete_document.
  replace (truthy_id (Some (cu_user_id user))) with true
    by (simpl; symmetry; now apply negb_true_iff, Z.eqb_neq).
  rewrite (head_filter_unique _ documents_id _ row Hnd Hin).
  2:{ apply andb_true_iff. split; apply bool_decide_eq_true; congruence. }
  2:{ intros x Hx. apply andb_true_iff in Hx as [Hx _].
      apply bool_decide_eq_true in Hx. congruence. }
  destruct (documents_filename row) as [|a s] eqn:Hf; [congruence|].
  cbn [truthy_opt truthy negb default].
  match goal with |- new_calls w (snd (bind _ _ ?w0)) = _ /\ _ => set (wd := w0) end.
  pose proof (delete_user_vectors_calls out (cu_user_id user) (Some (a :: s)) wd) as Hc.
  pose proof (delete_user_vectors_db (cu_user_id user) (Some (a :: s)) wd) as Hdb.
  rewrite Hown. unfold bind, ret.
  destruct (delete_user_vectors out (cu_user_id user) (Some (a :: s)) wd) as [[e|[]] w1];
    (split; [exact Hc|]); simpl in Hdb |- *; rewrite Hdb; simpl;
    apply Forall_forall; intros r0 Hr0;
    apply list_elem_of_In, filter_In in Hr0 as [_ Hr0];
    now apply negb_true_iff, bool_decide_eq_false in Hr0.
Qed.

Lemma change_role_run target req_role user w r w' :
  change_role target req_role user w = (r, w') ->
  calls w' = calls w /\
  (db w' = db w \/
   ((req_role = lit "user" \/ req_role = lit "admin") /\
    db w' = {| users :=
                 map (fun r => if bool_decide (users_id r = target)
                               then {| users_id := users_id r;
                                       users_username := users_username r;
                                       users_role := req_role |}
                               else r) (users (db w));
               documents := documents (db w) |})).
Proof.
  unfold change_role, require_admin.
  destruct (bool_decide (cu_role user = lit "admin")); cbn [negb];
    [|intros [= <- <-]; auto].
  unfold bind at 1. unfold ret at 1.
  destruct (bool_decide (req_role = lit "user")) eqn:Hu;
    [|destruct (bool_decide (req_role = lit "admin")) eqn:Ha];
    cbn [orb negb]; [| |intros [= <- <-]; auto];
    unfold bind, update_user_role;
    match goal with |- context [negb (truthy ?l)] => destruct (truthy l) end;
    cbn [negb]; intros [= <- <-]; (split; [reflexivity|]); right;
    (split; [|reflexivity]).
  all: first [ apply bool_decide_eq_true in Hu; now left
             | apply bool_decide_eq_true in Ha; now right ].
Qed.

(** X22: [change_role] keeps every stored role within "user" and "admin",
    whoever calls it and whatever role is asked for, and it issues no call. *)
Theorem change_role_keeps_roles_valid target req_role user w :
  roles_valid (db w) ->
  roles_valid (db (snd (change_role target req_role user w))) /\
  calls (snd (change_role target req_role user w)) = calls w.
Proof.
  intros Hv. destruct (change_role target req_role user w) as [r w'] eqn:Hrun.
  apply change_role_run in Hrun as (Hc & Hdb). simpl.
  split; [|exact Hc]. destruct Hdb as [->|(Hrole & ->)]; [exact Hv|].
  unfold roles_valid in *. simpl. apply Forall_map.
  eapply Forall_impl; [exact Hv|]. intros row Hrow.
  now destruct (bool_decide (users_id row = target)).
Qed.

Lemma ingest_document_db uid fname content ctype w :
  db (snd (ingest_document out uid fname content ctype w)) = db w.
Proof.
  destruct (extract_text out content ctype) as [e|text] eqn:Hx.
  - now rewrite (proj1 (ingest_document_rejected out uid fname content ctype w) e Hx).
  - destruct (blank text) eqn:Hb.
    + now rewrite (proj2 (ingest_document_rejected out uid fname content ctype w)
                     text Hx Hb).
    + destruct (ingest_document out uid fname content ctype w) as [r w'] eqn:Hrun.
      now apply (ingest_document_runs out _ _ _ _ text) in Hrun as (Hdb & _).
Qed.

(** [upload_document], with the ingestion it runs made explicit. *)
Lemma upload_document_unfold file user w :
  upload_document out next_rowid file user w =
  if negb (type_accepted file)
  then (inl (HTTPException 400
               (lit "Unsupported file type: " ++ str_or (uf_content_type file) []
                ++ lit ". Allowed: PDF, TXT, MD, CSV")), w)
  else if MAX_UPLOAD <? Z.of_nat (length (uf_content file))
  then (inl (HTTPException 400 (lit "File too large (max 20MB)")), w)
  else
    match ingest_document out (cu_user_id user) (upload_name file) (uf_content file)
            (processing_type (upload_name file)) w with
    | (inr n, w1) =>
        (inr {| up_message :=
                  lit "Ingested '" ++ upload_name file ++ lit "' " ++ [8594%N]
                  ++ lit " " ++ str_nat n ++ lit " chunks";
                up_document_id := next_rowid (db w1);
                up_chunk_count := n |},
         set_db {| users := users (db w1);
                   documents :=
                     documents (db w1) ++
                     [ {| documents_id := next_rowid (db w1);
                          documents_user_id := cu_user_id user;
                          documents_filename := upload_name file;
                          documents_chunk_count := Z.of_nat n |} ] |} w1)
    | (inl (ValueError msg), w1) => (inl (HTTPException 400 msg), w1)
    | (inl e, w1) => (inl e, w1)
    end.
Proof.
  unfold upload_document, type_accepted. fold (upload_name file).
  rewrite negb_orb.
  destruct (negb (bool_decide _) && negb (endswith_any _ _)); [reflexivity|].
  destruct (MAX_UPLOAD <? _); [reflexivity|].
  fold (processing_type (upload_name file)).
  unfold bind at 1. unfold try_except.
  destruct (ingest_document out (cu_user_id user) (upload_name file) (uf_content file)
              (processing_type (upload_name file)) w) as [[e|n] w1];
    [destruct e; reflexivity | reflexivity].
Qed.

(** X23: an upload whose declared type is not allowed and whose name has no
    allowed extension, or whose content is larger than 20 MB, is answered
    with a 400 and nothing has happened. *)
Theorem upload_document_rejects file user w :
  type_accepted file = false \/ MAX_UPLOAD < Z.of_nat (length (uf_content file)) ->
  exists detail,
    upload_document out next_rowid file user w = (inl (HTTPException 400 detail), w).
Proof.
  intros H. rewrite upload_document_unfold.
  destruct (type_accepted file); cbn [negb]; [|eauto].
  destruct H as [H|H]; [discriminate|].
  apply Z.ltb_lt in H. rewrite H. eauto.
Qed.

(** X24: a document row is recorded exactly when the upload succeeds: a run
    that returns has appended one row with the caller's id, the file name and
    the chunk count it reports; a run that raises leaves the tables as they
    were, whatever was already written to the vector store. *)
Theorem upload_document_records_on_success file user w :
  match upload_document out next_rowid file user w with
  | (inr resp, w') =>
      up_document_id resp = next_rowid (db w) /\
      users (db w') = users (db w) /\
      documents (db w') =
        documents (db w) ++
        [ {| documents_id := next_rowid (db w);
             documents_user_id := cu_user_id user;
             documents_filename := upload_name file;
             documents_chunk_count := Z.of_nat (up_chunk_count resp) |} ]
  | (inl _, w') => db w' = db w
  end.
Proof.
  rewrite upload_document_unfold.
  destruct (negb (type_accepted file)); [reflexivity|].
  destruct (MAX_UPLOAD <? _); [reflexivity|].
  pose proof (ingest_document_db (cu_user_id user) (upload_name file) (uf_content file)
                (processing_type (upload_name file)) w) as Hdb.
  destruct (ingest_document out (cu_user_id user) (upload_name file) (uf_content file)
              (processing_type (upload_name file)) w) as [[e|n] w1]; simpl in Hdb.
  - destruct e; exact Hdb.
  - simpl. now rewrite Hdb.
Qed.

(** X25: once the file name has an allowed extension, the content type the
    client declares plays no part: two uploads that differ only in it run
    alike. *)
Theorem upload_document_ignores_declared_type ct1 ct2 fn content user w :
  endswith_any (str_or fn (lit "unknown")) allowed_suffixes = true ->
  upload_document out next_rowid
    {| uf_content_type := ct1; uf_filename := fn; uf_content := content |} user w =
  upload_document out next_rowid
    {| uf_content_type := ct2; uf_filename := fn; uf_content := content |} user w.
Proof.
  intros H. rewrite !upload_document_unfold.
  unfold type_accepted, upload_name. cbn [uf_content_type uf_filename uf_content].
  rewrite H, !orb_true_r. reflexivity.
Qed.

(** X26: when the embedding service and the vector store answer every
    request, an accepted upload of at most 20 MB whose text is not blank
    succeeds: it reports the number of chunks of the text and the id of the
    row it recorded. *)
Theorem upload_document_succeeds file user w text :
  embedding_up out -> upsert_up out ->
  type_accepted file = true ->
  Z.of_nat (length (uf_content file)) <= MAX_UPLOAD ->
  extract_text out (uf_content file) (processing_type (upload_name file)) = inr text ->
  blank text = false ->
  exists resp w',
    upload_document out next_rowid file user w = (inr resp, w') /\
    up_chunk_count resp = length (chunk_text text) /\
    up_document_id resp = next_rowid (db w) /\
    In {| documents_id := next_rowid (db w);
          documents_user_id := cu_user_id user;
          documents_filename := upload_name file;
          documents_chunk_count := Z.of_nat (length (chunk_text text)) |}
       (documents (db w')).
Proof.
  intros Hemb Hup Hacc Hsize Hx Hb. rewrite upload_document_unfold, Hacc.
  cbn [negb]. replace (MAX_UPLOAD <? _) with false by (symmetry; now apply Z.ltb_ge).
  pose proof (ingest_document_db (cu_user_id user) (upload_name file) (uf_content file)
                (processing_type (upload_name file)) w) as Hdb.
  destruct (ingest_document_ok out (cu_user_id user) (upload_name file)
              (uf_content file) _ text w Hemb Hup Hx Hb) as (w1 & pts & Hrun & _).
  rewrite Hrun in Hdb |- *. simpl in Hdb.
  do 2 eexists. split; [reflexivity|]. simpl. rewrite Hdb.
  repeat split. apply in_or_app. right. now left.
Qed.

(** X27: an accepted upload whose text is empty or whitespace-only is
    answered with a 400 that carries the message of [ingest_document]; no
    call has been made and no row recorded. *)
Theorem upload_document_blank file user w text :
  type_accepted file = true ->
  Z.of_nat (length (uf_content file)) <= MAX_UPLOAD ->
  extract_text out (uf_content file) (processing_type (upload_name file)) = inr text ->
  blank text = true ->
  upload_document out next_rowid file user w =
  (inl (HTTPException 400 (lit "No text could be extracted from the document")), w).
Proof.
  intros Hacc Hsize Hx Hb. rewrite upload_document_unfold, Hacc.
  cbn [negb]. replace (MAX_UPLOAD <? _) with false by (symmetry; now apply Z.ltb_ge).
  now rewrite (proj2 (ingest_document_rejected out _ _ _ _ w) text Hx Hb).
Qed.

End EndpointFacts.

(** ** The further statements at concrete inputs *)

Lemma reference_embedding_up : embedding_up Reference.world.
Proof. intros text e. simpl. eauto. Qed.

Lemma reference_upsert_up : upsert_up Reference.world.
Proof. intros c pts e. simpl. eauto. Qed.

Lemma ingest_document_succeeds_witness :
  exists w' pts,
    ingest_document Reference.world 2 (lit "hello.txt") Scenario.hello_bytes
      (lit "text/plain") (Reference.start Reference.corpus Reference.no_db) =
      (inr (length (chunk_text (lit "hello world"))), w') /\
    (1 <= length (chunk_text (lit "hello world")))%nat /\
    map ps_payload pts =
      imap (ingest_payload 2 (lit "hello.txt")) (chunk_text (lit "hello world")) /\
    new_calls (Reference.start Reference.corpus Reference.no_db) w' =
      map EmbedCall (chunk_text (lit "hello world")) ++
      map (UpsertCall COLLECTION) (batches pts 100).
Proof.
  apply (ingest_document_succeeds Reference.world 2 (lit "hello.txt")
           Scenario.hello_bytes (lit "text/plain") (lit "hello world")
           (Reference.start Reference.corpus Reference.no_db)).
  - exact reference_embedding_up.
  - exact reference_upsert_up.
  - vm_compute. reflexivity.
  - vm_compute. reflexivity.
Defined.

Lemma ingest_document_tags_points_witness :
  Forall (fun p => exists i c,
            chunk_text (lit "hello world") !! i = Some c /\
            ps_payload p = ingest_payload 2 (lit "hello.txt") i c)
    (upserted_points
       (new_calls (Reference.start Reference.corpus Reference.no_db)
          (snd (ingest_document Reference.world 2 (lit "hello.txt")
                  Scenario.hello_bytes (lit "text/plain")
                  (Reference.start Reference.corpus Reference.no_db))))).
Proof.
  apply (ingest_document_tags_points Reference.world 2 (lit "hello.txt")
           Scenario.hello_bytes (lit "text/plain") (lit "hello world")
           (Reference.start Reference.corpus Reference.no_db)).
  vm_compute. reflexivity.
Defined.

Lemma ingest_document_embeds_first_witness :
  exists ups,
    new_calls (Reference.start Reference.corpus Reference.no_db)
      (snd (ingest_document Reference.world 2 (lit "hello.txt")
              Scenario.hello_bytes (lit "text/plain")
              (Reference.start Reference.corpus Reference.no_db))) =
      map EmbedCall (chunk_text (lit "hello world")) ++ ups /\
    forallb is_upsert_call ups = true.
Proof.
  apply (ingest_document_embeds_first Reference.world 2 (lit "hello.txt")
           Scenario.hello_bytes (lit "text/plain") (lit "hello world")
           (Reference.start Reference.corpus Reference.no_db)).
  - vm_compute. reflexivity.
  - vm_compute. reflexivity.
Defined.

Lemma ingest_document_pdf_without_text_witness :
  ingest_document Scenario.scanned 2 (lit "scan.pdf") Scenario.hello_bytes
    (lit "application/pdf") (Reference.start Reference.corpus Reference.no_db) =
  (inl (ValueError (lit "No text could be extracted from the document")),
   Reference.start Reference.corpus Reference.no_db).
Proof.
  apply (ingest_document_pdf_without_text Scenario.scanned 2 (lit "scan.pdf")
           Scenario.hello_bytes [lit "  "; []]
           (Reference.start Reference.corpus Reference.no_db)).
  - reflexivity.
  - apply List.Forall_cons; [reflexivity|].
    apply List.Forall_cons; [reflexivity|]. apply List.Forall_nil.
Defined.


Lemma query_rag_malformed_payload_witness :
  exists e w',
    query_rag Reference.world (lit "what?") 2 (lit "user") 5
      (Reference.start [Scenario.broken_point] Reference.no_db) = (inl e, w') /\
    (e = TypeError \/ exists key, e = KeyError key) /\
    new_calls (Reference.start [Scenario.broken_point] Reference.no_db) w' =
      [EmbedCall (lit "what?");
       QueryPointsCall COLLECTION [5] (rbac_filter (lit "user") 2) 5].
Proof.
  apply (query_rag_malformed_payload Reference.world (lit "what?") 2 (lit "user") 5
           (Reference.start [Scenario.broken_point] Reference.no_db)
           [5] [Scenario.broken_point]
           [Reference.to_scored Scenario.broken_point] [Scenario.broken_point]).
  - reflexivity.
  - vm_compute. reflexivity.
  - apply Exists_cons_hd. intros ((t & Ht) & _). vm_compute in Ht. discriminate.
Defined.

Lemma endpoints_require_admin_witness :
  remove_user Reference.world 3 Scenario.bob
    (Reference.start Reference.corpus Reference.office_db) =
    (inl (HTTPException 403 (lit "Admin access required")),
     Reference.start Reference.corpus Reference.office_db) /\
  change_role 1 (lit "user") Scenario.bob
    (Reference.start Reference.corpus Reference.office_db) =
    (inl (HTTPException 403 (lit "Admin access required")),
     Reference.start Reference.corpus Reference.office_db).
Proof.
  apply (endpoints_require_admin Reference.world 3 (lit "user") Scenario.bob
           (Reference.start Reference.corpus Reference.office_db)).
  vm_compute. discriminate.
Defined.

Lemma remove_user_deletes_vectors_first_witness :
  exists w',
    remove_user Reference.world 3 Reference.admin1
      (Reference.start Reference.corpus Reference.office_db) =
      (inl (HTTPException 404 (lit "User not found or is admin")), w') /\
    new_calls (Reference.start Reference.corpus Reference.office_db) w' =
      [DeleteCall COLLECTION (owner_filter 3)] /\
    env w' = [Reference.record 2 "a.txt" 0 "alpha"; Reference.record 2 "a.txt" 1 "gamma"] /\
    db w' = db (Reference.start Reference.corpus Reference.office_db).
Proof.
  apply (remove_user_deletes_vectors_first Reference.world 3 Reference.admin1
           (Reference.start Reference.corpus Reference.office_db)
           [Reference.record 2 "a.txt" 0 "alpha"; Reference.record 2 "a.txt" 1 "gamma"]).
  - reflexivity.
  - apply List.Forall_cons; [right; reflexivity|].
    apply List.Forall_cons; [left; vm_compute; discriminate|]. apply List.Forall_nil.
  - vm_compute. reflexivity.
Defined.

Lemma remove_document_respects_ownership_witness :
  users (db (snd (remove_document Reference.world 7 Scenario.carol
                    (Reference.start Reference.corpus Reference.office_db)))) =
    users (db (Reference.start Reference.corpus Reference.office_db)) /\
  Forall (fun r => documents_user_id r <> cu_user_id Scenario.carol ->
                   r ∈ documents
                         (db (snd (remove_document Reference.world 7 Scenario.carol
                                     (Reference.start Reference.corpus
                                        Reference.office_db)))))
         (documents (db (Reference.start Reference.corpus Reference.office_db))).
Proof.
  apply (remove_document_respects_ownership Reference.world 7 Scenario.carol
           (Reference.start Reference.corpus Reference.office_db)).
  - vm_compute. discriminate.
  - vm_compute. discriminate.
  - apply NoDup_cons_2; [apply not_elem_of_nil | apply NoDup_nil_2].
Defined.

Lemma remove_document_owner_filter_witness :
  new_calls (Reference.start Reference.corpus Reference.office_db)
    (snd (remove_document Reference.world 7 Scenario.bob
            (Reference.start Reference.corpus Reference.office_db))) =
    [DeleteCall COLLECTION
       {| must := [ {| key := "user_id"; match_ := {| value := PInt 2 |} |};
                    {| key := "filename";
                       match_ := {| value := PStr (lit "a.txt") |} |} ] |}] /\
  Forall (fun r => documents_id r <> 7)
         (documents
            (db (snd (remove_document Reference.world 7 Scenario.bob
                        (Reference.start Reference.corpus Reference.office_db))))).
Proof.
  apply (remove_document_owner_filter Reference.world 7 Scenario.bob
           (Reference.start Reference.corpus Reference.office_db)
           Reference.document7).
  - vm_compute. discriminate.
  - vm_compute. discriminate.
  - apply NoDup_cons_2; [apply not_elem_of_nil | apply NoDup_nil_2].
  - simpl. now left.
  - reflexivity.
  - reflexivity.
  - vm_compute. discriminate.
Defined.

Lemma change_role_keeps_roles_valid_witness :
  roles_valid (db (snd (change_role 2 (lit "admin") Reference.admin1
                          (Reference.start Reference.corpus Reference.office_db)))) /\
  calls (snd (change_role 2 (lit "admin") Reference.admin1
                (Reference.start Reference.corpus Reference.office_db))) =
    calls (Reference.start Reference.corpus Reference.office_db).
Proof.
  apply (change_role_keeps_roles_valid 2 (lit "admin") Reference.admin1
           (Reference.start Reference.corpus Reference.office_db)).
  apply List.Forall_cons; [right; reflexivity|].
  apply List.Forall_cons; [left; reflexivity|]. apply List.Forall_nil.
Defined.

Lemma upload_document_rejects_witness :
  exists detail,
    upload_document Reference.world Scenario.next_rowid Scenario.image_file
      Scenario.bob (Reference.start Reference.corpus Reference.office_db) =
    (inl (HTTPException 400 detail),
     Reference.start Reference.corpus Reference.office_db).
Proof.
  apply (upload_document_rejects Reference.world Scenario.next_rowid
           Scenario.image_file Scenario.bob
           (Reference.start Reference.corpus Reference.office_db)).
  left. vm_compute. reflexivity.
Defined.

Lemma upload_document_ignores_declared_type_witness :
  upload_document Reference.world Scenario.next_rowid
    {| uf_content_type := Some (lit "image/png");
       uf_filename := Some (lit "hello.txt");
       uf_content := Scenario.hello_bytes |}
    Scenario.bob (Reference.start Reference.corpus Reference.office_db) =
  upload_document Reference.world Scenario.next_rowid
    {| uf_content_type := None;
       uf_filename := Some (lit "hello.txt");
       uf_content := Scenario.hello_bytes |}
    Scenario.bob (Reference.start Reference.corpus Reference.office_db).
Proof.
  apply (upload_document_ignores_declared_type Reference.world Scenario.next_rowid
           (Some (lit "image/png")) None (Some (lit "hello.txt"))
           Scenario.hello_bytes Scenario.bob
           (Reference.start Reference.corpus Reference.office_db)).
  vm_compute. reflexivity.
Defined.

Lemma upload_document_succeeds_witness :
  exists resp w',
    upload_document Reference.world Scenario.next_rowid Scenario.hello_file
      Scenario.bob (Reference.start Reference.corpus Reference.office_db) =
      (inr resp, w') /\
    up_chunk_count resp = length (chunk_text (lit "hello world")) /\
    up_document_id resp =
      Scenario.next_rowid (db (Reference.start Reference.corpus Reference.office_db)) /\
    In {| documents_id :=
            Scenario.next_rowid
              (db (Reference.start Reference.corpus Reference.office_db));
          documents_user_id := cu_user_id Scenario.bob;
          documents_filename := upload_name Scenario.hello_file;
          documents_chunk_count := Z.of_nat (length (chunk_text (lit "hello world"))) |}
       (documents (db w')).
Proof.
  apply (upload_document_succeeds Reference.world Scenario.next_rowid
           Scenario.hello_file Scenario.bob
           (Reference.start Reference.corpus Reference.office_db)
           (lit "hello world")).
  - exact reference_embedding_up.
  - exact reference_upsert_up.
  - vm_compute. reflexivity.
  - vm_compute. discriminate.
  - vm_compute. reflexivity.
  - vm_compute. reflexivity.
Defined.

Lemma upload_document_blank_witness :
  upload_document Reference.world Scenario.next_rowid Scenario.blank_file
    Scenario.bob (Reference.start Reference.corpus Reference.office_db) =
  (inl (HTTPException 400 (lit "No text could be extracted from the document")),
   Reference.start Reference.corpus Reference.office_db).
Proof.
  apply (upload_document_blank Reference.world Scenario.next_rowid
           Scenario.blank_file Scenario.bob
           (Reference.start Reference.corpus Reference.office_db)
           [32%N; 10%N]).
  - vm_compute. reflexivity.
  - vm_compute. discriminate.
  - vm_compute. reflexivity.
  - vm_compute. reflexivity.
Defined.
